(** * The unique-vertex layer of the Avalanche vertex store

    A shallow embedding of [uniqueVertex] and [vertexState] (package
    [state]): the handle that the consensus engine holds for a vertex of
    the DAG, its reconciliation with the de-duplicating cache and the
    database ([refresh]), and the decision operations [Accept] and
    [Reject].

    Go pointers are addresses into two arenas kept in the world state: one
    of [uniqueVertex] objects and one of [vertexState] objects.  A nil
    pointer is [None]; dereferencing it is the outcome [Panic]. *)

From stdpp Require Import base option list gmap strings.

Set Default Proof Using "Type".

(** ** Data *)

(** [ids.ID]: a 32-byte hash, read as a number. *)
Definition ID := N.

(** A Go [error] value, by its message; the nil error is [None]. *)
Definition error := string.

(** [snowstorm.Tx], by its identifier. *)
Definition Tx := N.

(** [choices.Status]; [Unknown] is the zero value. *)
Inductive Status := Unknown | Processing | Rejected | Accepted.

#[global] Instance Status_eq_dec : EqDecision Status.
Proof. solve_decision. Defined.

(** The decoded vertex body; the fields the handle reads. *)
Record vertex := mkVertex {
  id : ID;
  parentIDs : list ID;
  height : N;
  vtx_txs : list Tx;
  vtx_bytes : list Byte.byte
}.

(** [&vertex{}] *)
Definition zero_vertex : vertex := mkVertex 0%N [] 0%N [] [].

(** [type vertexState struct]; [vtx] is a pointer to an immutable body,
    [parents] holds addresses of [uniqueVertex] objects (a nil slice is the
    empty list). *)
Record vertexState := mkState {
  unique : bool;
  verified : bool;
  validity : option error;
  vtx : option vertex;
  status : Status;
  parents : list nat;
  txs : list Tx
}.

(** [&vertexState{}] *)
Definition zero_state : vertexState :=
  mkState false false None None Unknown [] [].

(** [type uniqueVertex struct]; the [serializer] field is the world itself,
    [v] is the address of a [vertexState]. *)
Record uniqueVertex := mkHandle {
  vtxID : ID;
  bytes : option (list Byte.byte);
  v : option nat
}.

(** The calls a handle makes on the store and on the parser, in order. *)
Inductive Event :=
| EvStatus (i : ID)
| EvSetStatus (i : ID) (s : Status)
| EvVertex (i : ID)
| EvSetVertex (b : vertex)
| EvSetEdge (e : gset ID)
| EvCommit
| EvParse (b : list Byte.byte).

(** What the database holds: vertex bodies, statuses and the frontier. *)
Record StoreData := mkStore {
  vertices : gmap ID vertex;
  statuses : gmap ID Status;
  frontier : gset ID
}.

(** The serializer and everything reachable from it. *)
Record World := mkWorld {
  handles : list uniqueVertex;
  cells : list vertexState;
  cache : list (ID * nat);
  cacheSize : nat;
  edge : gset ID;
  pending : StoreData;
  committed : StoreData;
  commitErr : option error;
  events : list Event
}.

Definition set_handles (f : list uniqueVertex → list uniqueVertex) (w : World) : World :=
  mkWorld (f (handles w)) (cells w) (cache w) (cacheSize w) (edge w)
          (pending w) (committed w) (commitErr w) (events w).

Definition set_cells (f : list vertexState → list vertexState) (w : World) : World :=
  mkWorld (handles w) (f (cells w)) (cache w) (cacheSize w) (edge w)
          (pending w) (committed w) (commitErr w) (events w).

Definition set_cache (f : list (ID * nat) → list (ID * nat)) (w : World) : World :=
  mkWorld (handles w) (cells w) (f (cache w)) (cacheSize w) (edge w)
          (pending w) (committed w) (commitErr w) (events w).

Definition set_edge (f : gset ID → gset ID) (w : World) : World :=
  mkWorld (handles w) (cells w) (cache w) (cacheSize w) (f (edge w))
          (pending w) (committed w) (commitErr w) (events w).

Definition set_pending (f : StoreData → StoreData) (w : World) : World :=
  mkWorld (handles w) (cells w) (cache w) (cacheSize w) (edge w)
          (f (pending w)) (committed w) (commitErr w) (events w).

Definition set_committed (f : StoreData → StoreData) (w : World) : World :=
  mkWorld (handles w) (cells w) (cache w) (cacheSize w) (edge w)
          (pending w) (f (committed w)) (commitErr w) (events w).

Definition add_event (e : Event) (w : World) : World :=
  mkWorld (handles w) (cells w) (cache w) (cacheSize w) (edge w)
          (pending w) (committed w) (commitErr w) (events w ++ [e]).

(** Field updates of a [vertexState]. *)
Definition with_unique (b : bool) (c : vertexState) : vertexState :=
  mkState b (verified c) (validity c) (vtx c) (status c) (parents c) (txs c).
Definition with_verified (b : bool) (c : vertexState) : vertexState :=
  mkState (unique c) b (validity c) (vtx c) (status c) (parents c) (txs c).
Definition with_validity (e : option error) (c : vertexState) : vertexState :=
  mkState (unique c) (verified c) e (vtx c) (status c) (parents c) (txs c).
Definition with_vtx (b : option vertex) (c : vertexState) : vertexState :=
  mkState (unique c) (verified c) (validity c) b (status c) (parents c) (txs c).
Definition with_status (s : Status) (c : vertexState) : vertexState :=
  mkState (unique c) (verified c) (validity c) (vtx c) s (parents c) (txs c).
Definition with_parents (p : list nat) (c : vertexState) : vertexState :=
  mkState (unique c) (verified c) (validity c) (vtx c) (status c) p (txs c).
Definition with_txs (t : list Tx) (c : vertexState) : vertexState :=
  mkState (unique c) (verified c) (validity c) (vtx c) (status c) (parents c) t.

(** ** Computations: state passing, with a panic outcome *)

Inductive Res (A : Type) := Ok (a : A) | Panic.
Arguments Ok {A} a.
Arguments Panic {A}.

Definition M (A : Type) : Type := World → Res (A * World).

#[global] Instance M_ret : MRet M := λ A a w, Ok (a, w).
#[global] Instance M_bind : MBind M := λ A B f m w,
  match m w with
  | Ok (a, w') => f a w'
  | Panic => Panic
  end.

Definition panic {A} : M A := λ _, Panic.
Definition get : M World := λ w, Ok (w, w).
Definition modify (f : World → World) : M unit := λ w, Ok (tt, f w).

(** The world a computation ends in, when it does not panic. *)
Definition exec {A} (m : M A) (w : World) : option World :=
  match m w with Ok (_, w') => Some w' | Panic => None end.

(** [for _, x := range l { f x }] *)
Fixpoint for_each {A} (f : A → M unit) (l : list A) : M unit :=
  match l with
  | [] => mret tt
  | x :: l' => f x ;; for_each f l'
  end.

(** ** The two arenas *)

Definition load_handle (h : nat) : M uniqueVertex := λ w,
  match handles w !! h with Some x => Ok (x, w) | None => Panic end.

Definition store_handle (h : nat) (x : uniqueVertex) : M unit :=
  modify (set_handles (λ hs, <[h := x]> hs)).

Definition new_handle (x : uniqueVertex) : M nat := λ w,
  Ok (length (handles w), set_handles (λ hs, hs ++ [x]) w).

Definition load_cell (a : nat) : M vertexState := λ w,
  match cells w !! a with Some c => Ok (c, w) | None => Panic end.

Definition update_cell (a : nat) (f : vertexState → vertexState) : M unit :=
  c ← load_cell a; modify (set_cells (λ cs, <[a := f c]> cs)).

Definition new_cell (c : vertexState) : M nat := λ w,
  Ok (length (cells w), set_cells (λ cs, cs ++ [c]) w).

(** [vtx.v] followed by a field access: the address held by the handle, or
    a nil dereference. *)
Definition cell_of (h : nat) : M nat :=
  x ← load_handle h;
  match v x with Some a => mret a | None => panic end.

(** [vtx.v.vtx] followed by a field access. *)
Definition body_of (h : nat) : M vertex :=
  a ← cell_of h; c ← load_cell a;
  match vtx c with Some b => mret b | None => panic end.

(** ** Collaborators of the handle

    The store ([serializer.state], [serializer.db]) and the de-duplicating
    cache behind [state.UniqueVertex] are not part of the handle's file;
    they are modelled from the specification of their interface.  Every
    call on the store is logged. *)

(** Modelled from the spec: [getStatus(id)] of the persistent vertex store;
    an absent entry reads as Unknown. *)
Definition state_Status (i : ID) : M Status :=
  modify (add_event (EvStatus i)) ;;
  w ← get; mret (default Unknown (statuses (pending w) !! i)).

(** Modelled from the spec: [putStatus(id, status)] of the store; the put
    waits for the next commit. *)
Definition state_SetStatus (i : ID) (s : Status) : M unit :=
  modify (add_event (EvSetStatus i s)) ;;
  modify (set_pending (λ d, mkStore (vertices d) (<[i := s]> (statuses d)) (frontier d))).

(** Modelled from the spec: [getBody(id)] of the store; nil when absent. *)
Definition state_Vertex (i : ID) : M (option vertex) :=
  modify (add_event (EvVertex i)) ;;
  w ← get; mret (vertices (pending w) !! i).

(** Modelled from the spec: [putBody(id, body)] of the store.  The handle
    passes the body alone and the store files it under the body's own
    identifier, so a nil body is a nil dereference. *)
Definition state_SetVertex (b : option vertex) : M unit :=
  match b with
  | None => panic
  | Some x =>
      modify (add_event (EvSetVertex x)) ;;
      modify (set_pending (λ d, mkStore (<[id x := x]> (vertices d)) (statuses d) (frontier d)))
  end.

(** Modelled from the spec: [putFrontier(set)] of the store. *)
Definition state_SetEdge (e : gset ID) : M unit :=
  modify (add_event (EvSetEdge e)) ;;
  modify (set_pending (λ d, mkStore (vertices d) (statuses d) e)).

(** Modelled from the spec: [commit()] of the store.  It makes the puts
    issued since the last commit durable as one unit, or fails, reports
    the failure and makes none of them durable; [commitErr] is the answer
    the store is about to give. *)
Definition db_Commit : M (option error) :=
  modify (add_event EvCommit) ;;
  w ← get;
  match commitErr w with
  | Some e => mret (Some e)
  | None => modify (set_committed (λ _, pending w)) ;; mret None
  end.

(** [func (vtx *uniqueVertex) Evict()]: the hook the cache calls on the
    entry it drops. *)
Definition Evict (h : nat) : M unit :=
  x ← load_handle h;
  match v x with
  | Some a => update_cell a (with_unique false)
  | None => mret tt
  end.

(** Modelled from the spec: the entry the de-duplicator holds for a key;
    the cache lists its entries most recently resolved first. *)
Fixpoint cache_find (k : ID) (l : list (ID * nat)) : option nat :=
  match l with
  | [] => None
  | (k', g) :: l' => if decide (k = k') then Some g else cache_find k l'
  end.

(** Modelled from the spec: the cache without the entries of a key. *)
Definition cache_remove (k : ID) (l : list (ID * nat)) : list (ID * nat) :=
  filter (λ e, e.1 ≠ k) l.

(** Modelled from the spec: the de-duplicator's [resolve]
    ([state.UniqueVertex]), a cache of bounded size keyed by vertex ID.
    Resolving a candidate whose ID is cached returns the cached handle and
    makes it the most recent; otherwise the candidate is registered, after
    the least recently resolved entry is dropped, its [Evict] hook called,
    when the cache is full. *)
Definition state_UniqueVertex (h : nat) : M nat :=
  x ← load_handle h;
  w ← get;
  match cache_find (vtxID x) (cache w) with
  | Some g =>
      modify (set_cache (λ l, (vtxID x, g) :: cache_remove (vtxID x) l)) ;;
      mret g
  | None =>
      (if decide (cacheSize w ≤ length (cache w)) then
         match last (cache w) with
         | Some (k', g') =>
             modify (set_cache (λ l, take (length l - 1) l)) ;; Evict g'
         | None => mret tt
         end
       else mret tt) ;;
      modify (set_cache (λ l, (vtxID x, h) :: l)) ;;
      mret h
  end.

Section Handle.

(** The wire-format parser ([serializer.parseVertex]) and the validator of
    a body ([vertex.Verify]) are outside the handle's file and are left
    open.  The parser returns a Go pair: a body pointer and an error. *)
Variable parseVertex : list Byte.byte → option vertex * option error.
Variable verifyVertex : vertex → option error.

Definition serializer_parseVertex (b : list Byte.byte) : M (option vertex * option error) :=
  modify (add_event (EvParse b)) ;; mret (parseVertex b).

(** ** The handle's operations *)

(** [func (vtx *uniqueVertex) ID() ids.ID] *)
Definition ID_of (h : nat) : M ID :=
  x ← load_handle h; mret (vtxID x).

(** [func (vtx *uniqueVertex) storeAndUpdateStatus()] *)
Definition storeAndUpdateStatus (h : nat) : M unit :=
  a ← cell_of h; c ← load_cell a;
  state_SetVertex (vtx c) ;;
  i ← ID_of h;
  st ← state_Status i;
  if decide (st = Unknown) then
    state_SetStatus i Processing ;;
    a ← cell_of h; update_cell a (with_status Processing)
  else
    a ← cell_of h; update_cell a (with_status st).

(** The [switch] of [refresh]: where the body comes from when the state
    has none; [prevVtx] is the body the handle's state had before it was
    reconciled with the cache. *)
Definition derive_body (h : nat) (prevVtx : option vertex) : M unit :=
  x ← load_handle h;
  a ← cell_of h; c ← load_cell a;
  match vtx c, prevVtx, bytes x with
  | None, None, Some b =>
      r ← serializer_parseVertex b;
      match r.2 with
      | Some err =>
          update_cell a (with_vtx r.1) ;;
          storeAndUpdateStatus h
      | None =>
          update_cell a (with_vtx (Some zero_vertex)) ;;
          update_cell a (with_validity r.2) ;;
          update_cell a (with_verified true)
      end
  | None, None, None =>
      i ← ID_of h;
      b ← state_Vertex i;
      update_cell a (with_vtx b)
  | None, Some p, _ =>
      update_cell a (with_vtx prevVtx)
  | Some _, _, _ => mret tt
  end.

(** [func (vtx *uniqueVertex) refresh()].  The diagnostic prints are left
    out. *)
Definition refresh (h : nat) : M unit :=
  x ← load_handle h;
  (match v x with
   | Some _ => mret tt
   | None => a ← new_cell zero_state; store_handle h (mkHandle (vtxID x) (bytes x) (Some a))
   end) ;;
  a ← cell_of h; c ← load_cell a;
  if unique c then mret tt
  else
    u ← state_UniqueVertex h;
    a ← cell_of h; c ← load_cell a;
    let prevVtx := vtx c in
    (if decide (u = h) then
       i ← ID_of h;
       st ← state_Status i;
       a ← cell_of h;
       update_cell a (with_status st) ;;
       update_cell a (with_unique true)
     else
       x ← load_handle h;
       g ← load_handle u;
       store_handle h (mkHandle (vtxID g) (bytes x) (v g))) ;;
    derive_body h prevVtx.

(** [func (vtx *uniqueVertex) setStatus(status choices.Status)] *)
Definition setStatus (h : nat) (s : Status) : M unit :=
  refresh h ;;
  a ← cell_of h; c ← load_cell a;
  if decide (status c ≠ s) then
    i ← ID_of h;
    state_SetStatus i s ;;
    update_cell a (with_status s)
  else mret tt.

(** [func (vtx *uniqueVertex) setVertex(innerVtx *vertex)] *)
Definition setVertex (h : nat) (innerVtx : option vertex) : M unit :=
  refresh h ;;
  a ← cell_of h; c ← load_cell a;
  match vtx c with
  | None =>
      update_cell a (with_vtx innerVtx) ;;
      state_SetVertex innerVtx ;;
      setStatus h Processing
  | Some _ => mret tt
  end.

(** [func (vtx *uniqueVertex) Status() choices.Status] *)
Definition Status_of (h : nat) : M Status :=
  refresh h ;;
  a ← cell_of h; c ← load_cell a; mret (status c).

(** The loop of [Parents]: one fresh handle per parent ID, known by ID
    only. *)
Fixpoint make_parents (l : list ID) : M (list nat) :=
  match l with
  | [] => mret []
  | i :: l' =>
      p ← new_handle (mkHandle i None None);
      ps ← make_parents l';
      mret (p :: ps)
  end.

(** [func (vtx *uniqueVertex) Parents() []avalanche.Vertex] *)
Definition Parents (h : nat) : M (list nat) :=
  refresh h ;;
  a ← cell_of h; c ← load_cell a;
  b ← body_of h;
  (if decide (length (parents c) ≠ length (parentIDs b)) then
     ps ← make_parents (parentIDs b);
     update_cell a (with_parents ps)
   else mret tt) ;;
  c ← load_cell a; mret (parents c).

(** [func (vtx *uniqueVertex) Height() uint64] *)
Definition Height (h : nat) : M N :=
  refresh h ;;
  b ← body_of h; mret (height b).

(** [func (vtx *uniqueVertex) Txs() []snowstorm.Tx] *)
Definition Txs (h : nat) : M (list Tx) :=
  refresh h ;;
  b ← body_of h;
  a ← cell_of h; c ← load_cell a;
  (if decide (length (vtx_txs b) ≠ length (txs c)) then
     update_cell a (with_txs (vtx_txs b))
   else mret tt) ;;
  c ← load_cell a; mret (txs c).

(** [func (vtx *uniqueVertex) Bytes() []byte] *)
Definition Bytes (h : nat) : M (list Byte.byte) :=
  x ← load_handle h;
  match bytes x with
  | Some b => mret b
  | None => b ← body_of h; mret (vtx_bytes b)
  end.

(** [func (vtx *uniqueVertex) Verify() error] *)
Definition Verify (h : nat) : M (option error) :=
  a ← cell_of h; c ← load_cell a;
  if verified c then mret (validity c)
  else
    b ← body_of h;
    update_cell a (with_validity (verifyVertex b)) ;;
    update_cell a (with_verified true) ;;
    c ← load_cell a; mret (validity c).

(** [func (vtx *uniqueVertex) Accept() error] *)
Definition Accept (h : nat) : M (option error) :=
  setStatus h Accepted ;;
  i ← ID_of h;
  modify (set_edge (λ e, {[i]} ∪ e)) ;;
  ps ← Parents h;
  for_each (λ p, j ← ID_of p; modify (set_edge (λ e, e ∖ {[j]}))) ps ;;
  w ← get;
  state_SetEdge (edge w) ;;
  a ← cell_of h;
  update_cell a (with_parents []) ;;
  db_Commit.

(** [func (vtx *uniqueVertex) Reject() error] *)
Definition Reject (h : nat) : M (option error) :=
  setStatus h Rejected ;;
  a ← cell_of h;
  update_cell a (with_parents []) ;;
  db_Commit.

(** ** Observing a handle over a sequence of operations *)

(** The operations that read or write the status of a handle. *)
Inductive Op := OpRefresh | OpSetStatus (s : Status) | OpAccept | OpReject | OpStatus.

Definition run_op (h : nat) (o : Op) : M unit :=
  match o with
  | OpRefresh => refresh h
  | OpSetStatus s => setStatus h s
  | OpAccept => Accept h ;; mret tt
  | OpReject => Reject h ;; mret tt
  | OpStatus => Status_of h ;; mret tt
  end.

(** The status [Status()] reports after each operation of a sequence. *)
Fixpoint observe (h : nat) (ops : list Op) : M (list Status) :=
  match ops with
  | [] => mret []
  | o :: ops' =>
      run_op h o ;;
      s ← Status_of h;
      ss ← observe h ops';
      mret (s :: ss)
  end.

End Handle.

(** The status an operation asks for, given the current one. *)
Definition status_after (o : Op) (cur : Status) : Status :=
  match o with
  | OpSetStatus s => s
  | OpAccept => Accepted
  | OpReject => Rejected
  | OpRefresh | OpStatus => cur
  end.

Fixpoint statuses_requested (cur : Status) (ops : list Op) : list Status :=
  match ops with
  | [] => []
  | o :: ops' => status_after o cur :: statuses_requested (status_after o cur) ops'
  end.

(** ** The consensus lifecycle *)

(** Position of a status in the lifecycle Unknown, Processing, then
    Accepted or Rejected. *)
Definition rank (s : Status) : nat :=
  match s with Unknown => 0 | Processing => 1 | Rejected | Accepted => 2 end.

(** A status may be followed by itself or by a later status of the
    lifecycle; the two decisions never follow one another. *)
Definition lifecycle_step (s t : Status) : bool :=
  bool_decide (s = t) || bool_decide (rank s < rank t).

Fixpoint follows_lifecycle (l : list Status) : bool :=
  match l with
  | s :: l' =>
      match l' with
      | t :: _ => lifecycle_step s t && follows_lifecycle l'
      | [] => true
      end
  | [] => true
  end.

(** ** Reconciled handles *)

(** A handle [h] is reconciled when it holds a state and that state is
    marked as the cache's: [x] is the handle object, [a] the address of its
    state and [c] the state. *)
Definition reconciled (w : World) (h a : nat) (x : uniqueVertex) (c : vertexState) : Prop :=
  handles w !! h = Some x ∧ v x = Some a ∧ cells w !! a = Some c ∧ unique c = true.

(** The handle [h] holds the state at [a], and that state is the
    cache's. *)
Definition holds (h a : nat) (w : World) : Prop :=
  ∃ x c, reconciled w h a x c.

(** The identifiers of the handles in a cached parent list. *)
Definition parent_ids (w : World) (ps : list nat) : list (option ID) :=
  (λ p, vtxID <$> handles w !! p) <$> ps.

(** A cached parent list that [Parents] will return as it is names the
    parents of the body. *)
Definition cached_parents_ok (w : World) (c : vertexState) (b : vertex) : Prop :=
  length (parents c) = length (parentIDs b) →
  parent_ids w (parents c) = Some <$> parentIDs b.

(** The handles [Parents] allocates for a body. *)
Definition fresh_parents (b : vertex) : list uniqueVertex :=
  (λ i, mkHandle i None None) <$> parentIDs b.

(** The world after [state.SetStatus(i, s)] and [vtx.v.status = s]. *)
Definition put_status (i : ID) (s : Status) (a : nat) (c : vertexState) (w : World) : World :=
  mkWorld (handles w) (<[a := with_status s c]> (cells w)) (cache w) (cacheSize w)
          (edge w)
          (mkStore (vertices (pending w)) (<[i := s]> (statuses (pending w)))
                   (frontier (pending w)))
          (committed w) (commitErr w) (events w ++ [EvSetStatus i s]).

(** What [setStatus] leaves in the store and in the log, by whether the
    status changes. *)
Definition statuses_after (i : ID) (old s : Status) (m : gmap ID Status) : gmap ID Status :=
  if decide (old = s) then m else <[i := s]> m.

Definition status_events (i : ID) (old s : Status) : list Event :=
  if decide (old = s) then [] else [EvSetStatus i s].

(** The frontier after [Accept]: the vertex added, its parents removed. *)
Definition edge_after_accept (i : ID) (b : vertex) (e : gset ID) : gset ID :=
  ({[i]} ∪ e) ∖ list_to_set (parentIDs b).

(** What [db.Commit] leaves durable. *)
Definition commit_result (err : option error) (old new : StoreData) : StoreData :=
  match err with Some _ => old | None => new end.

(** The world after [Accept] on a reconciled handle with body [b]. *)
Definition accepted_world (x : uniqueVertex) (a : nat) (c : vertexState) (b : vertex)
    (w : World) : World :=
  let e := edge_after_accept (vtxID x) b (edge w) in
  let p := mkStore (vertices (pending w))
                   (statuses_after (vtxID x) (status c) Accepted (statuses (pending w))) e in
  mkWorld
    (if decide (length (parents c) = length (parentIDs b)) then handles w
     else handles w ++ fresh_parents b)
    (<[a := with_parents [] (with_status Accepted c)]> (cells w))
    (cache w) (cacheSize w) e p
    (commit_result (commitErr w) (committed w) p)
    (commitErr w)
    (events w ++ status_events (vtxID x) (status c) Accepted ++ [EvSetEdge e; EvCommit]).

(** The world after [Reject] on a reconciled handle. *)
Definition rejected_world (x : uniqueVertex) (a : nat) (c : vertexState) (w : World) : World :=
  let p := mkStore (vertices (pending w))
                   (statuses_after (vtxID x) (status c) Rejected (statuses (pending w)))
                   (frontier (pending w)) in
  mkWorld (handles w)
    (<[a := with_parents [] (with_status Rejected c)]> (cells w))
    (cache w) (cacheSize w) (edge w) p
    (commit_result (commitErr w) (committed w) p)
    (commitErr w)
    (events w ++ status_events (vtxID x) (status c) Rejected ++ [EvCommit]).


(** A reconciled handle with body [b] and status [s], whose cached parent
    list is usable. *)
Definition settled (w : World) (h a : nat) (x : uniqueVertex) (b : vertex) (s : Status) : Prop :=
  ∃ c, reconciled w h a x c ∧ vtx c = Some b ∧ cached_parents_ok w c b ∧ status c = s.

(** The value a computation returns, when it does not panic. *)
Definition eval {A} (m : M A) (w : World) : option A :=
  match m w with Ok (a, _) => Some a | Panic => None end.

(** ** A small DAG to run the operations on

    Vertex 3 has parents 1 and 2, both accepted and forming the frontier. *)

Definition demo_parse (bs : list Byte.byte) : option vertex * option error :=
  match bs with
  | [] => (None, Some "empty vertex"%string)
  | _ => (Some (mkVertex 3%N [1%N; 2%N] 5%N [] bs), None)
  end.

Definition demo_verify (b : vertex) : option error :=
  if decide (parentIDs b = []) then Some "no parents"%string else None.

Definition body_V : vertex := mkVertex 3%N [1%N; 2%N] 5%N [] [].
Definition body_A : vertex := mkVertex 1%N [] 4%N [] [].
Definition body_B : vertex := mkVertex 2%N [] 4%N [] [].

(** The store, with status [s] recorded for vertex 3. *)
Definition store_V (s : Status) : StoreData :=
  mkStore (<[3%N := body_V]> (<[2%N := body_B]> (<[1%N := body_A]> ∅)))
          (<[3%N := s]> (<[2%N := Accepted]> (<[1%N := Accepted]> ∅)))
          {[1%N; 2%N]}.

(** A handle for vertex 3 built from its ID, before any call on it; the
    next commit returns [err]. *)
Definition world_new (s : Status) (err : option error) : World :=
  mkWorld [mkHandle 3%N None None] [] [] 4 {[1%N; 2%N]}
          (store_V s) (store_V s) err [].

(** The same handle after its first [refresh]. *)
Definition handle_V : uniqueVertex := mkHandle 3%N None (Some 0).
Definition state_V (s : Status) : vertexState :=
  mkState true false None (Some body_V) s [] [].
Definition world_V (s : Status) (err : option error) : World :=
  mkWorld [handle_V] [state_V s] [(3%N, 0)] 4 {[1%N; 2%N]}
          (store_V s) (store_V s) err [EvStatus 3%N; EvVertex 3%N].

(** A handle for vertex 3 built from received bytes. *)
Definition world_bytes : World :=
  mkWorld [mkHandle 3%N (Some [Byte.x01]) None] [] [] 4 {[1%N; 2%N]}
          (store_V Unknown) (store_V Unknown) None [].

(** A handle for vertex 1 built from its ID, as [Parents] builds them. *)
Definition world_by_id : World :=
  mkWorld [mkHandle 1%N None None] [] [] 4 {[1%N; 2%N]}
          (store_V Unknown) (store_V Unknown) None [].

(** The handle of [world_bytes] after its first [refresh]. *)
Definition world_bytes_refreshed : World :=
  mkWorld [mkHandle 3%N (Some [Byte.x01]) (Some 0)]
          [mkState true true None (Some zero_vertex) Unknown [] []]
          [(3%N, 0)] 4 {[1%N; 2%N]} (store_V Unknown) (store_V Unknown) None
          [EvStatus 3%N; EvParse [Byte.x01]].

(** A second handle for vertex 3, built from received bytes, beside the
    reconciled handle that the cache holds. *)
Definition handle_V' : uniqueVertex := mkHandle 3%N (Some [Byte.x01]) None.
Definition world_two (s : Status) : World :=
  mkWorld [handle_V; handle_V'] [state_V s] [(3%N, 0)] 4 {[1%N; 2%N]}
          (store_V s) (store_V s) None [EvStatus 3%N; EvVertex 3%N].

(** A handle for vertex 9, which the store does not know, built from its
    ID, before and after its first [refresh]. *)
Definition world_unknown : World :=
  mkWorld [mkHandle 9%N None None] [] [] 4 {[1%N; 2%N]}
          (store_V Unknown) (store_V Unknown) None [].
Definition handle_N : uniqueVertex := mkHandle 9%N None (Some 0).
Definition state_N : vertexState := mkState true false None None Unknown [] [].
Definition world_unknown_refreshed : World :=
  mkWorld [handle_N] [state_N] [(9%N, 0)] 4 {[1%N; 2%N]}
          (store_V Unknown) (store_V Unknown) None [EvStatus 9%N; EvVertex 9%N].
Definition body_N : vertex := mkVertex 9%N [3%N] 6%N [] [].


(** Vertex 5, which carries two transactions, in a store of its own; a
    handle for it built from its ID, before and after its first
    [refresh]. *)
Definition body_T : vertex := mkVertex 5%N [] 4%N [10%N; 11%N] [].
Definition store_T : StoreData :=
  mkStore (<[5%N := body_T]> ∅) (<[5%N := Processing]> ∅) ∅.
Definition world_T : World :=
  mkWorld [mkHandle 5%N None None] [] [] 4 ∅ store_T store_T None [].
Definition handle_T : uniqueVertex := mkHandle 5%N None (Some 0).
Definition state_T : vertexState :=
  mkState true false None (Some body_T) Processing [] [].
Definition world_T_refreshed : World :=
  mkWorld [handle_T] [state_T] [(5%N, 0)] 4 ∅ store_T store_T None
          [EvStatus 5%N; EvVertex 5%N].



(** * The router's metrics

    [type metrics struct] of package [router] and its [Initialize] and
    [Shutdown].  A collector is identified by its namespace and name; the
    registry it is registered with is a [prometheus.Registerer], an
    interface of a library outside the repository, left open. *)

Module Router.

(** A gauge, counter or histogram, as made by [prometheus.NewGauge],
    [NewCounter] and [NewHistogram] from namespace and name. *)
Record Collector := mkCollector { namespace : string; name : string }.

#[global] Instance Collector_eq_dec : EqDecision Collector.
Proof. solve_decision. Defined.

(** [prometheus.Registerer]: [Register] answers an error or nil,
    [Unregister] answers whether the collector was registered.  A
    collector value may be nil. *)
Class Registerer (R : Type) := {
  Register : Collector → R → option error * R;
  Unregister : option Collector → R → bool * R
}.

(** [type metrics struct]; [registerer] tells whether the field is set. *)
Record metrics := mkMetrics {
  registerer : bool;
  pending : option Collector;
  dropped : option Collector;
  getAcceptedFrontier : option Collector;
  acceptedFrontier : option Collector;
  getAcceptedFrontierFailed : option Collector;
  getAccepted : option Collector;
  accepted : option Collector;
  getAcceptedFailed : option Collector;
  getAncestors : option Collector;
  multiPut : option Collector;
  getAncestorsFailed : option Collector;
  get : option Collector;
  put : option Collector;
  getFailed : option Collector;
  pushQuery : option Collector;
  pullQuery : option Collector;
  chits : option Collector;
  queryFailed : option Collector;
  notify : option Collector;
  gossip : option Collector;
  shutdown : option Collector
}.

(** [&metrics{}] *)
Definition zero_metrics : metrics :=
  mkMetrics false None None None None None None None None None None None
            None None None None None None None None None None.

(** [a && b] on calls that change the registry: [b] is not called when [a]
    answers false. *)
Definition and_then {R} (a b : R → bool * R) : R → bool * R := λ r,
  let '(x, r') := a r in if x then b r' else (false, r').

Section Metrics.

Context {R : Type} `{Registerer R}.

(** [errs.Add(err)] of [wrappers.Errs], outside the repository's files
    given here, left open. *)
Variable errs_Add : option error → error → option error.

(** [func initHistogram(namespace, name, registerer, errs)] *)
Definition initHistogram (ns nm : string) (errs : option error) (r : R)
    : Collector * option error * R :=
  let histogram := mkCollector ns nm in
  let '(err, r') := Register histogram r in
  (histogram,
   match err with
   | Some e =>
       errs_Add errs ("failed to register " +:+ nm +:+ " statistics due to " +:+ e)
   | None => errs
   end,
   r').

(** [func (m *metrics) Initialize(namespace, registerer) error] *)
Definition Initialize (ns : string) (r : R) : metrics * option error * R :=
  let errs : option error := None in
  let c_pending := mkCollector ns "pending" in
  let '(err, r) := Register c_pending r in
  let errs :=
    match err with
    | Some e => errs_Add errs ("failed to register pending statistics due to " +:+ e)
    | None => errs
    end in
  let c_dropped := mkCollector ns "dropped" in
  let '(err, r) := Register c_dropped r in
  let errs :=
    match err with
    | Some e => errs_Add errs ("failed to register dropped statistics due to " +:+ e)
    | None => errs
    end in
  let '(c_getAcceptedFrontier, errs, r) := initHistogram ns "get_accepted_frontier" errs r in
  let '(c_acceptedFrontier, errs, r) := initHistogram ns "accepted_frontier" errs r in
  let '(c_getAcceptedFrontierFailed, errs, r) :=
    initHistogram ns "get_accepted_frontier_failed" errs r in
  let '(c_getAccepted, errs, r) := initHistogram ns "get_accepted" errs r in
  let '(c_accepted, errs, r) := initHistogram ns "accepted" errs r in
  let '(c_getAcceptedFailed, errs, r) := initHistogram ns "get_accepted_failed" errs r in
  let '(c_getAncestors, errs, r) := initHistogram ns "get_ancestors" errs r in
  let '(c_multiPut, errs, r) := initHistogram ns "multi_put" errs r in
  let '(c_getAncestorsFailed, errs, r) := initHistogram ns "get_ancestors_failed" errs r in
  let '(c_get, errs, r) := initHistogram ns "get" errs r in
  let '(c_put, errs, r) := initHistogram ns "put" errs r in
  let '(c_getFailed, errs, r) := initHistogram ns "get_failed" errs r in
  let '(c_pushQuery, errs, r) := initHistogram ns "push_query" errs r in
  let '(c_pullQuery, errs, r) := initHistogram ns "pull_query" errs r in
  let '(c_chits, errs, r) := initHistogram ns "chits" errs r in
  let '(c_queryFailed, errs, r) := initHistogram ns "query_failed" errs r in
  let '(c_notify, errs, r) := initHistogram ns "notify" errs r in
  let '(c_gossip, errs, r) := initHistogram ns "gossip" errs r in
  let '(c_shutdown, errs, r) := initHistogram ns "shutdown" errs r in
  (mkMetrics true (Some c_pending) (Some c_dropped)
     (Some c_getAcceptedFrontier) (Some c_acceptedFrontier)
     (Some c_getAcceptedFrontierFailed)
     (Some c_getAccepted) (Some c_accepted) (Some c_getAcceptedFailed)
     (Some c_getAncestors) (Some c_multiPut) (Some c_getAncestorsFailed)
     (Some c_get) (Some c_put) (Some c_getFailed)
     (Some c_pushQuery) (Some c_pullQuery) (Some c_chits) (Some c_queryFailed)
     (Some c_notify) (Some c_gossip) (Some c_shutdown),
   errs, r).

(** [func (m *metrics) Shutdown() error] *)
Definition Shutdown (m : metrics) (r : R) : option error * R :=
  if negb (registerer m) then (None, r)
  else
    let '(ok, r') :=
      and_then (and_then (and_then (and_then (and_then (and_then (and_then
      (and_then (and_then (and_then (and_then (and_then (and_then (and_then
      (and_then (and_then (and_then (and_then (and_then
        (Unregister (pending m))
        (Unregister (dropped m)))
        (Unregister (getAcceptedFrontier m)))
        (Unregister (acceptedFrontier m)))
        (Unregister (getAccepted m)))
        (Unregister (accepted m)))
        (Unregister (getAcceptedFailed m)))
        (Unregister (getAncestors m)))
        (Unregister (multiPut m)))
        (Unregister (getAncestorsFailed m)))
        (Unregister (get m)))
        (Unregister (put m)))
        (Unregister (getFailed m)))
        (Unregister (pushQuery m)))
        (Unregister (pullQuery m)))
        (Unregister (chits m)))
        (Unregister (queryFailed m)))
        (Unregister (notify m)))
        (Unregister (gossip m)))
        (Unregister (shutdown m)) r in
    if ok then (None, r')
    else (Some "could not unregister all chain handler metrics"%string, r').

(** The registrations [Initialize] makes for a list of names, one after the
    other, each as [initHistogram] does. *)
Fixpoint register_names (ns : string) (l : list string) (errs : option error) (r : R)
    : option error * R :=
  match l with
  | [] => (errs, r)
  | nm :: l' =>
      let '(_, errs', r') := initHistogram ns nm errs r in
      register_names ns l' errs' r'
  end.

(** A chain of [Unregister] calls joined by [&&]. *)
Fixpoint unregister_chain (l : list (option Collector)) (r : R) : bool * R :=
  match l with
  | [] => (true, r)
  | c :: l' =>
      let '(x, r') := Unregister c r in
      if x then unregister_chain l' r' else (false, r')
  end.

End Metrics.

(** The names [Initialize] registers, in order, and the names [Shutdown]
    unregisters, in order. *)
Definition initialized_names : list string :=
  ["pending"; "dropped"; "get_accepted_frontier"; "accepted_frontier";
   "get_accepted_frontier_failed"; "get_accepted"; "accepted";
   "get_accepted_failed"; "get_ancestors"; "multi_put"; "get_ancestors_failed";
   "get"; "put"; "get_failed"; "push_query"; "pull_query"; "chits";
   "query_failed"; "notify"; "gossip"; "shutdown"]%string.

Definition shutdown_names : list string :=
  ["pending"; "dropped"; "get_accepted_frontier"; "accepted_frontier";
   "get_accepted"; "accepted";
   "get_accepted_failed"; "get_ancestors"; "multi_put"; "get_ancestors_failed";
   "get"; "put"; "get_failed"; "push_query"; "pull_query"; "chits";
   "query_failed"; "notify"; "gossip"; "shutdown"]%string.

Definition collectors (ns : string) (names : list string) : list Collector :=
  mkCollector ns <$> names.

(** The fields [Initialize] leaves in the struct. *)
Definition metrics_of (ns : string) : metrics :=
  mkMetrics true
    (Some (mkCollector ns "pending")) (Some (mkCollector ns "dropped"))
    (Some (mkCollector ns "get_accepted_frontier"))
    (Some (mkCollector ns "accepted_frontier"))
    (Some (mkCollector ns "get_accepted_frontier_failed"))
    (Some (mkCollector ns "get_accepted")) (Some (mkCollector ns "accepted"))
    (Some (mkCollector ns "get_accepted_failed"))
    (Some (mkCollector ns "get_ancestors")) (Some (mkCollector ns "multi_put"))
    (Some (mkCollector ns "get_ancestors_failed"))
    (Some (mkCollector ns "get")) (Some (mkCollector ns "put"))
    (Some (mkCollector ns "get_failed"))
    (Some (mkCollector ns "push_query")) (Some (mkCollector ns "pull_query"))
    (Some (mkCollector ns "chits")) (Some (mkCollector ns "query_failed"))
    (Some (mkCollector ns "notify")) (Some (mkCollector ns "gossip"))
    (Some (mkCollector ns "shutdown")).

(** The longest prefix of a list of collectors that a registry holds. *)
Fixpoint held_prefix (held : Collector → bool) (l : list Collector) : list Collector :=
  match l with
  | c :: l' => if held c then c :: held_prefix held l' else []
  | [] => []
  end.

(** What a registry is expected to do, in terms of the collectors it holds:
    registering a collector it holds is refused and changes nothing,
    registering another one adds it; unregistering a collector it holds
    removes it and answers true, unregistering another one answers false
    and changes nothing. *)
Class RegistererLaws (R : Type) `{Registerer R} (registered : R → Collector → bool)
    : Prop := {
  Register_new r c :
    registered r c = false →
    ∃ r', Register c r = (None, r') ∧
          ∀ c', registered r' c' = bool_decide (c' = c) || registered r c';
  Register_held r c :
    registered r c = true → ∃ e, Register c r = (Some e, r);
  Unregister_held r c :
    registered r c = true →
    ∃ r', Unregister (Some c) r = (true, r') ∧
          ∀ c', registered r' c' = negb (bool_decide (c' = c)) && registered r c';
  Unregister_other r c :
    registered r c = false → Unregister (Some c) r = (false, r)
}.

(** A registry as the list of the collectors it holds. *)
#[global] Instance list_registerer : Registerer (list Collector) := {
  Register c r :=
    if decide (c ∈ r)
    then (Some "duplicate metrics collector registration attempted"%string, r)
    else (None, c :: r);
  Unregister oc r :=
    match oc with
    | Some c => if decide (c ∈ r) then (true, filter (λ c', c' ≠ c) r) else (false, r)
    | None => (false, r)
    end
}.

Definition list_registered (r : list Collector) (c : Collector) : bool :=
  bool_decide (c ∈ r).

(** [wrappers.Errs] as it is used here: the first error added is kept. *)
Definition first_error (errs : option error) (e : error) : option error :=
  match errs with Some _ => errs | None => Some e end.

End Router.


(** * The wallet

    [type Wallet struct] of package [avm] with [NewWallet], [AddUTXO],
    [RemoveUTXO], [Balance] and [NextTx].  The keychain, the UTXO set and
    the outputs are types of other files, left open; the clock, the codec
    and the logger, which these functions do not read, are left out.  A
    [uint64] is a [Z] and its arithmetic wraps around. *)

Module Avm.

(** [math.MaxUint64] *)
Definition MaxUint64 : Z := (2 ^ 64 - 1)%Z.

(** The result of [+] and [-] on [uint64]. *)
Definition wrap64 (z : Z) : Z := (z mod 2 ^ 64)%Z.

(** [avax.UTXO]: the ID it is known by ([InputID()]), its asset
    ([AssetID()]) and its output ([Out]). *)
Record UTXO (O : Type) := mkUTXO { InputID : ID; AssetID : ID; Out : O }.
Arguments mkUTXO {O} _ _ _.
Arguments InputID {O} _.
Arguments AssetID {O} _.
Arguments Out {O} _.

(** [utxo.Out.(avax.TransferableOut)] and [Amount()]: the amount of an
    output that is a transferable one, nothing for another output. *)
Class Output (O : Type) := { Amount : O → option Z }.

(** [secp256k1fx.Keychain]: [NewKeychain()], and of [Spend(out, time)] the
    error or nil, which is all the wallet reads here. *)
Class Keychain (K O : Type) := {
  NewKeychain : K;
  Spend : K → O → Z → option error
}.

(** [UTXOSet]: [&UTXOSet{}], [Put], [Get], which answers nil for an ID it
    does not hold, and [Remove], whose answer the wallet does not read. *)
Class UTXOSet (U O : Type) := {
  zero_UTXOSet : U;
  Put : UTXO O → U → U;
  Get : ID → U → option (UTXO O);
  Remove : ID → U → U
}.

(** [type Wallet struct] *)
Record Wallet (K U T : Type) := mkWallet {
  networkID : Z;
  chainID : ID;
  avaxAssetID : ID;
  keychain : K;
  utxoSet : U;
  balance : gmap ID Z;
  txFee : Z;
  txs : list T
}.
Arguments mkWallet {K U T} _ _ _ _ _ _ _ _.
Arguments networkID {K U T} _.
Arguments chainID {K U T} _.
Arguments avaxAssetID {K U T} _.
Arguments keychain {K U T} _.
Arguments utxoSet {K U T} _.
Arguments balance {K U T} _.
Arguments txFee {K U T} _.
Arguments txs {K U T} _.

Section Wallet.

Context {K U O T : Type} `{Output O} `{Keychain K O} `{UTXOSet U O}.

(** [func NewWallet(log, networkID, chainID, avaxAssetID, txFee)];
    [codecErr] is what the ten [RegisterType] calls on the new codec leave
    in [errs.Err]. *)
Definition NewWallet (networkID : Z) (chainID avaxAssetID : ID) (txFee : Z)
    (codecErr : option error) : Wallet K U T * option error :=
  (mkWallet networkID chainID avaxAssetID NewKeychain zero_UTXOSet ∅ txFee [],
   codecErr).

(** [w.balance[key]]: zero for a key the map does not hold. *)
Definition balance_at (m : gmap ID Z) (key : ID) : Z := default 0%Z (m !! key).

(** [func (w *Wallet) AddUTXO(utxo *avax.UTXO)] *)
Definition AddUTXO (utxo : option (UTXO O)) (w : Wallet K U T) : Res (Wallet K U T) :=
  match utxo with
  | None => Panic
  | Some utxo =>
      match Amount (Out utxo) with
      | None => Ok w
      | Some amount =>
          match Spend (keychain w) (Out utxo) MaxUint64 with
          | None =>
              Ok (mkWallet (networkID w) (chainID w) (avaxAssetID w) (keychain w)
                    (Put utxo (utxoSet w))
                    (<[AssetID utxo :=
                         wrap64 (balance_at (balance w) (AssetID utxo) + amount)]>
                       (balance w))
                    (txFee w) (txs w))
          | Some _ => Ok w
          end
      end
  end.

(** [func (w *Wallet) RemoveUTXO(utxoID ids.ID)] *)
Definition RemoveUTXO (utxoID : ID) (w : Wallet K U T) : Res (Wallet K U T) :=
  match Get utxoID (utxoSet w) with
  | None => Ok w
  | Some utxo =>
      let assetKey := AssetID utxo in
      match Amount (Out utxo) with
      | None => Panic
      | Some amount =>
          let newBalance := wrap64 (balance_at (balance w) assetKey - amount) in
          Ok (mkWallet (networkID w) (chainID w) (avaxAssetID w) (keychain w)
                (Remove utxoID (utxoSet w))
                (if decide (newBalance = 0%Z)
                 then delete assetKey (balance w)
                 else <[assetKey := newBalance]> (balance w))
                (txFee w) (txs w))
      end
  end.

(** [func (w *Wallet) Balance(assetID ids.ID) uint64] *)
Definition Balance (assetID : ID) (w : Wallet K U T) : Z :=
  balance_at (balance w) assetID.

(** [func (w *Wallet) NextTx()], which answers a transaction and an error *)
Definition NextTx (w : Wallet K U T) : option T * option error * Wallet K U T :=
  match txs w with
  | [] => (None, Some "no more transactions remaining"%string, w)
  | tx :: rest =>
      (Some tx, None,
       mkWallet (networkID w) (chainID w) (avaxAssetID w) (keychain w)
         (utxoSet w) (balance w) (txFee w) rest)
  end.

(** [NextTx] called up to [n] times, until it answers an error: the
    transactions answered, the last error and the wallet left. *)
Fixpoint NextTxs (n : nat) (w : Wallet K U T) : list T * option error * Wallet K U T :=
  match n with
  | 0 => ([], None, w)
  | S n' =>
      match NextTx w with
      | (Some tx, _, w') =>
          let '(l, e, w'') := NextTxs n' w' in (tx :: l, e, w'')
      | (None, e, w') => ([], e, w')
      end
  end.

(** Every amount the map holds is a [uint64]. *)
Definition balances_in_range (w : Wallet K U T) : Prop :=
  ∀ key z, balance w !! key = Some z → (0 ≤ z < 2 ^ 64)%Z.

End Wallet.

(** A UTXO set as a finite map that keeps the first UTXO put under an ID;
    outputs that carry their amount, if transferable; a keychain that is
    the list of the amounts it cannot spend. *)
#[global] Instance option_output : Output (option Z) := { Amount o := o }.

#[global] Instance list_keychain : Keychain (list Z) (option Z) := {
  NewKeychain := [];
  Spend kc out time :=
    match out with
    | Some z => if decide (z ∈ kc) then Some "unable to spend this output"%string else None
    | None => Some "unable to spend this output"%string
    end
}.

#[global] Instance map_utxoset : UTXOSet (gmap ID (UTXO (option Z))) (option Z) := {
  zero_UTXOSet := ∅;
  Put utxo s := match s !! InputID utxo with Some _ => s | None => <[InputID utxo := utxo]> s end;
  Get i s := s !! i;
  Remove i s := delete i s
}.

(** A wallet for asset 7 with no UTXO and a UTXO of 5 units of it. *)
Definition demo_wallet : Wallet (list Z) (gmap ID (UTXO (option Z))) N :=
  (NewWallet (T := N) 1%Z 2%N 7%N 0%Z None).1.
Definition demo_utxo : UTXO (option Z) := mkUTXO 40%N 7%N (Some 5%Z).

End Avm.
(** ** Stepping through computations *)

Lemma bind_Ok {A B} (m : M A) (f : A → M B) w a w' :
  m w = Ok (a, w') → (m ≫= f) w = f a w'.
Proof. intros H. unfold mbind, M_bind. by rewrite H. Qed.

Lemma bind_Panic {A B} (m : M A) (f : A → M B) w :
  m w = Panic → (m ≫= f) w = Panic.
Proof. intros H. unfold mbind, M_bind. by rewrite H. Qed.

Lemma load_handle_Ok w h x :
  handles w !! h = Some x → load_handle h w = Ok (x, w).
Proof. intros H. unfold load_handle. by rewrite H. Qed.

Lemma cell_of_Ok w h x a :
  handles w !! h = Some x → v x = Some a → cell_of h w = Ok (a, w).
Proof.
  intros Hh Hv. unfold cell_of. erewrite bind_Ok by by apply load_handle_Ok.
  by rewrite Hv.
Qed.

Lemma cell_of_nil w h x :
  handles w !! h = Some x → v x = None → cell_of h w = Panic.
Proof.
  intros Hh Hv. unfold cell_of. erewrite bind_Ok by by apply load_handle_Ok.
  by rewrite Hv.
Qed.

Lemma load_cell_Ok w a c : cells w !! a = Some c → load_cell a w = Ok (c, w).
Proof. intros H. unfold load_cell. by rewrite H. Qed.

Lemma update_cell_Ok w a c f :
  cells w !! a = Some c →
  update_cell a f w = Ok (tt, set_cells (λ cs, <[a := f c]> cs) w).
Proof.
  intros H. unfold update_cell. erewrite bind_Ok by by apply load_cell_Ok. done.
Qed.

Lemma ID_of_Ok w h x : handles w !! h = Some x → ID_of h w = Ok (vtxID x, w).
Proof.
  intros H. unfold ID_of. erewrite bind_Ok by by apply load_handle_Ok. done.
Qed.

Lemma body_of_Ok w h x a c b :
  handles w !! h = Some x → v x = Some a → cells w !! a = Some c → vtx c = Some b →
  body_of h w = Ok (b, w).
Proof.
  intros Hh Hv Hc Hb. unfold body_of.
  erewrite bind_Ok by by eapply cell_of_Ok.
  erewrite bind_Ok by by apply load_cell_Ok.
  by rewrite Hb.
Qed.

Lemma cells_insert_lookup (cs : list vertexState) a c c' :
  cs !! a = Some c → <[a := c']> cs !! a = Some c'.
Proof. intros H. apply list_lookup_insert_eq. by eapply lookup_lt_Some. Qed.

Lemma make_parents_Ok l w :
  make_parents l w =
  Ok (seq (length (handles w)) (length l),
      set_handles (λ hs, hs ++ ((λ i, mkHandle i None None) <$> l)) w).
Proof.
  revert w. induction l as [|i l IH]; intros w.
  - destruct w. unfold set_handles. simpl. by rewrite app_nil_r.
  - simpl. unfold new_handle. unfold mbind at 1, M_bind at 1.
    unfold mbind at 1, M_bind at 1. rewrite IH.
    destruct w. unfold set_handles, mret, M_ret. simpl.
    rewrite length_app. simpl. rewrite Nat.add_1_r, <- app_assoc. done.
Qed.

Lemma parent_ids_fresh (hs : list uniqueVertex) (l : list ID) w :
  handles w = hs ++ ((λ i, mkHandle i None None) <$> l) →
  parent_ids w (seq (length hs) (length l)) = Some <$> l.
Proof.
  intros Hw. unfold parent_ids. rewrite Hw.
  apply list_eq. intros k. rewrite !list_lookup_fmap.
  destruct (decide (k < length l)) as [Hk|Hk].
  - rewrite lookup_seq_lt by done. simpl.
    rewrite lookup_app_r by lia.
    replace (length hs + k - length hs) with k by lia.
    rewrite list_lookup_fmap.
    destruct (l !! k) eqn:E; [done|].
    apply lookup_ge_None in E. lia.
  - rewrite lookup_seq_ge by lia. simpl.
    rewrite (proj2 (lookup_ge_None l k)) by lia. done.
Qed.

(** Removing the parents one by one leaves the set difference. *)
Lemma remove_parents_Ok (ps : list nat) (js : list ID) w :
  parent_ids w ps = Some <$> js →
  for_each (λ p, j ← ID_of p; modify (set_edge (λ e, e ∖ {[j]}))) ps w =
  Ok (tt, set_edge (λ e, e ∖ list_to_set js) w).
Proof.
  revert js w. induction ps as [|p ps IH]; intros js w H.
  - destruct js; [|done]. destruct w. unfold set_edge. simpl.
    unfold mret, M_ret. do 3 f_equal. set_solver.
  - destruct js as [|j js]; [done|]. unfold parent_ids in H. simpl in H.
    injection H as Hp Hps.
    destruct (handles w !! p) as [y|] eqn:Ey; [|done]. simpl in Hp.
    injection Hp as Hp. simpl.
    erewrite bind_Ok; cycle 1.
    { erewrite bind_Ok by by apply ID_of_Ok. reflexivity. }
    rewrite (IH js) by done.
    destruct w. unfold set_edge. simpl. do 3 f_equal. subst j. set_solver.
Qed.

Lemma lookup_snoc {A} (l : list A) (y : A) : (l ++ [y]) !! length l = Some y.
Proof. by apply list_lookup_middle. Qed.

Lemma insert_snoc {A} (l : list A) (y z : A) : <[length l := z]> (l ++ [y]) = l ++ [z].
Proof. rewrite insert_app_r_alt by done. by rewrite Nat.sub_diag. Qed.

(** Solve a look-up in one of the arenas. *)
Ltac lk :=
  simpl; rewrite ?insert_snoc;
  first [ eassumption | apply lookup_snoc | by apply list_lookup_insert_eq
        | by eapply cells_insert_lookup ].

(** Run the next step of a computation whose outcome is determined. *)
Ltac run :=
  first
    [ erewrite bind_Ok by reflexivity
    | erewrite bind_Ok by (apply load_handle_Ok; lk)
    | erewrite bind_Ok by (eapply cell_of_Ok; [lk | first [reflexivity | eassumption]])
    | erewrite bind_Ok by (apply load_cell_Ok; lk)
    | erewrite bind_Ok by (apply ID_of_Ok; lk)
    | erewrite bind_Ok by (apply update_cell_Ok; lk) ].

Ltac go := repeat first [run | progress simpl].

Section Reconciled.

Variable parseVertex : list Byte.byte → option vertex * option error.
Variable verifyVertex : vertex → option error.

(** ** Operations on a reconciled handle *)

(** [refresh] returns at once: no cache look-up, no store access. *)
Lemma refresh_reconciled w h a x c :
  reconciled w h a x c → refresh parseVertex h w = Ok (tt, w).
Proof.
  intros (Hh & Hv & Hc & Hu). unfold refresh.
  erewrite bind_Ok by by apply load_handle_Ok.
  rewrite Hv. erewrite bind_Ok by reflexivity.
  erewrite bind_Ok by by eapply cell_of_Ok.
  erewrite bind_Ok by by eapply load_cell_Ok.
  by rewrite Hu.
Qed.

Lemma Status_reconciled w h a x c :
  reconciled w h a x c → Status_of parseVertex h w = Ok (status c, w).
Proof.
  intros Hr. pose proof Hr as (Hh & Hv & Hc & Hu). unfold Status_of.
  erewrite bind_Ok by by eapply refresh_reconciled.
  erewrite bind_Ok by by eapply cell_of_Ok.
  erewrite bind_Ok by by eapply load_cell_Ok.
  done.
Qed.

Lemma setStatus_reconciled w h a x c s :
  reconciled w h a x c →
  setStatus parseVertex h s w =
  Ok (tt, if decide (status c = s) then w else put_status (vtxID x) s a c w).
Proof.
  intros Hr. pose proof Hr as (Hh & Hv & Hc & Hu). unfold setStatus.
  erewrite bind_Ok by by eapply refresh_reconciled.
  erewrite bind_Ok by by eapply cell_of_Ok.
  erewrite bind_Ok by by eapply load_cell_Ok.
  destruct (decide (status c = s)) as [Hs|Hs].
  - rewrite decide_False by (intros Hn; by apply Hn). done.
  - rewrite decide_True by done.
    erewrite bind_Ok by by eapply ID_of_Ok.
    erewrite bind_Ok by reflexivity.
    erewrite update_cell_Ok by exact Hc. done.
Qed.

Lemma put_status_reconciled w h a x c s :
  reconciled w h a x c →
  reconciled (put_status (vtxID x) s a c w) h a x (with_status s c).
Proof.
  intros (Hh & Hv & Hc & Hu). repeat split; try done.
  simpl. by eapply cells_insert_lookup.
Qed.

(** After [setStatus] the handle is reconciled and carries the new status,
    whatever the old one was. *)
Lemma setStatus_reconciled_post w h a x c s :
  reconciled w h a x c →
  ∃ w', setStatus parseVertex h s w = Ok (tt, w') ∧
        reconciled w' h a x (with_status s c) ∧
        handles w' = handles w ∧ cache w' = cache w ∧ cacheSize w' = cacheSize w ∧
        edge w' = edge w ∧ committed w' = committed w ∧ commitErr w' = commitErr w ∧
        cells w' = <[a := with_status s c]> (cells w) ∧
        pending w' = mkStore (vertices (pending w))
                       (statuses_after (vtxID x) (status c) s (statuses (pending w)))
                       (frontier (pending w)) ∧
        events w' = events w ++ status_events (vtxID x) (status c) s.
Proof.
  intros Hr. eexists. split; [by eapply setStatus_reconciled|].
  unfold statuses_after, status_events.
  destruct (decide (status c = s)) as [Hs|Hs].
  - pose proof Hr as (Hh & Hv & Hc & Hu).
    assert (with_status s c = c) as -> by (destruct c; simpl in *; by subst).
    rewrite list_insert_id by done. rewrite app_nil_r.
    repeat split; try done. by destruct (pending w).
  - split; [by apply put_status_reconciled|]. done.
Qed.

(** [Parents] on a reconciled handle with a body: the cached list when its
    length is that of the body's parent IDs, fresh handles otherwise. *)
Lemma Parents_reconciled w h a x c b :
  reconciled w h a x c → vtx c = Some b →
  Parents parseVertex h w =
  if decide (length (parents c) = length (parentIDs b)) then Ok (parents c, w)
  else
    let ps := seq (length (handles w)) (length (parentIDs b)) in
    Ok (ps, mkWorld (handles w ++ fresh_parents b) (<[a := with_parents ps c]> (cells w))
              (cache w) (cacheSize w) (edge w) (pending w) (committed w)
              (commitErr w) (events w)).
Proof.
  intros Hr Hb. pose proof Hr as (Hh & Hv & Hc & Hu). unfold Parents.
  erewrite bind_Ok by by eapply refresh_reconciled.
  erewrite bind_Ok by by eapply cell_of_Ok.
  erewrite bind_Ok by by eapply load_cell_Ok.
  erewrite bind_Ok by by eapply body_of_Ok.
  destruct (decide (length (parents c) = length (parentIDs b))) as [Hl|Hl].
  - rewrite decide_False by (intros Hn; by apply Hn).
    erewrite bind_Ok by reflexivity.
    erewrite bind_Ok by by eapply load_cell_Ok. done.
  - rewrite decide_True by done.
    erewrite bind_Ok; cycle 1.
    { erewrite bind_Ok by apply make_parents_Ok.
      apply update_cell_Ok. simpl. exact Hc. }
    erewrite bind_Ok; cycle 1.
    { apply load_cell_Ok. simpl. by eapply cells_insert_lookup. }
    done.
Qed.

Lemma db_Commit_Ok w :
  db_Commit w =
  Ok (commitErr w,
      mkWorld (handles w) (cells w) (cache w) (cacheSize w) (edge w) (pending w)
              (commit_result (commitErr w) (committed w) (pending w))
              (commitErr w) (events w ++ [EvCommit])).
Proof.
  destruct w as [hs cs ca n e p co err ev]. unfold db_Commit.
  erewrite bind_Ok by reflexivity.
  erewrite bind_Ok by reflexivity. simpl.
  destruct err; [done|].
  erewrite bind_Ok by reflexivity. done.
Qed.

Lemma Accept_reconciled w h a x c b :
  reconciled w h a x c → vtx c = Some b → cached_parents_ok w c b →
  Accept parseVertex h w = Ok (commitErr w, accepted_world x a c b w).
Proof.
  intros Hr Hb Hp. unfold Accept.
  destruct (setStatus_reconciled_post w h a x c Accepted Hr)
    as (w1 & E1 & Hr1 & Hh1 & Hca1 & Hcs1 & He1 & Hco1 & Hce1 & Hcl1 & Hpe1 & Hev1).
  erewrite bind_Ok by exact E1.
  pose proof Hr1 as (Hh & Hv & Hc & Hu).
  erewrite bind_Ok by by eapply ID_of_Ok.
  erewrite bind_Ok by reflexivity.
  set (w2 := set_edge _ w1).
  assert (reconciled w2 h a x (with_status Accepted c)) as Hr2 by exact Hr1.
  pose proof (Parents_reconciled w2 h a x _ b Hr2 Hb) as EP.
  simpl parents in EP.
  destruct (decide (length (parents c) = length (parentIDs b))) as [Hl|Hl].
  - erewrite bind_Ok by exact EP.
    erewrite bind_Ok; cycle 1.
    { apply (remove_parents_Ok _ (parentIDs b)).
      unfold parent_ids. simpl. rewrite Hh1. by apply Hp. }
    erewrite bind_Ok by reflexivity.
    erewrite bind_Ok by reflexivity.
    erewrite bind_Ok by (by eapply cell_of_Ok).
    erewrite bind_Ok by (by eapply update_cell_Ok).
    rewrite db_Commit_Ok. simpl.
    unfold accepted_world. rewrite decide_True by done.
    rewrite Hh1, Hca1, Hcs1, He1, Hco1, Hce1, Hcl1, Hpe1, Hev1. simpl.
    rewrite list_insert_insert_eq. rewrite <- !app_assoc. done.
  - cbv zeta in EP. erewrite bind_Ok by exact EP.
    erewrite bind_Ok; cycle 1.
    { apply (remove_parents_Ok _ (parentIDs b)).
      eapply parent_ids_fresh. reflexivity. }
    erewrite bind_Ok by reflexivity.
    erewrite bind_Ok by reflexivity.
    erewrite bind_Ok by (by eapply cell_of_Ok; [simpl; apply lookup_app_l_Some; exact Hh|]).
    erewrite bind_Ok; cycle 1.
    { eapply update_cell_Ok. simpl. by eapply cells_insert_lookup. }
    rewrite db_Commit_Ok. simpl.
    unfold accepted_world. rewrite decide_False by done.
    rewrite Hh1, Hca1, Hcs1, He1, Hco1, Hce1, Hcl1, Hpe1, Hev1. simpl.
    rewrite !list_insert_insert_eq. rewrite <- !app_assoc. done.
Qed.

Lemma Reject_reconciled w h a x c :
  reconciled w h a x c →
  Reject parseVertex h w = Ok (commitErr w, rejected_world x a c w).
Proof.
  intros Hr. unfold Reject.
  destruct (setStatus_reconciled_post w h a x c Rejected Hr)
    as (w1 & E1 & Hr1 & Hh1 & Hca1 & Hcs1 & He1 & Hco1 & Hce1 & Hcl1 & Hpe1 & Hev1).
  erewrite bind_Ok by exact E1.
  pose proof Hr1 as (Hh & Hv & Hc & Hu).
  erewrite bind_Ok by (by eapply cell_of_Ok).
  erewrite bind_Ok by (by eapply update_cell_Ok).
  rewrite db_Commit_Ok. simpl.
  unfold rejected_world.
  rewrite Hh1, Hca1, Hcs1, He1, Hco1, Hce1, Hcl1, Hpe1, Hev1. simpl.
  rewrite list_insert_insert_eq. rewrite <- !app_assoc. done.
Qed.

(** ** Decisions keep a handle reconciled *)

Lemma accepted_world_reconciled w h a x c b :
  reconciled w h a x c →
  reconciled (accepted_world x a c b w) h a x (with_parents [] (with_status Accepted c)).
Proof.
  intros (Hh & Hv & Hc & Hu). repeat split; try done; simpl.
  - case_decide; [done|]. by apply lookup_app_l_Some.
  - by eapply cells_insert_lookup.
Qed.

Lemma rejected_world_reconciled w h a x c :
  reconciled w h a x c →
  reconciled (rejected_world x a c w) h a x (with_parents [] (with_status Rejected c)).
Proof.
  intros (Hh & Hv & Hc & Hu). repeat split; try done; simpl.
  by eapply cells_insert_lookup.
Qed.

(** An empty cached list is always usable: it is returned only for a body
    without parents. *)
Lemma cleared_parents_ok w c b : parents c = [] → cached_parents_ok w c b.
Proof.
  intros Hp Hl. rewrite Hp in *. destruct (parentIDs b); [done|discriminate].
Qed.

Lemma cached_parents_ok_status w w' c b s :
  handles w' = handles w →
  cached_parents_ok w c b → cached_parents_ok w' (with_status s c) b.
Proof. intros Hh Hp Hl. unfold parent_ids. rewrite Hh. by apply Hp. Qed.

Lemma statuses_after_lookup i old s (m : gmap ID Status) :
  old ≠ s ∨ m !! i = Some s → statuses_after i old s m !! i = Some s.
Proof.
  intros H. unfold statuses_after. case_decide as Hd.
  - by destruct H.
  - apply lookup_insert_eq.
Qed.

Lemma statuses_after_other i j old s (m : gmap ID Status) :
  j ≠ i → statuses_after i old s m !! j = m !! j.
Proof.
  intros H. unfold statuses_after. case_decide; [done|]. by apply lookup_insert_ne.
Qed.


(** ** A handle that its [refresh] reconciles

    Every operation below starts with [refresh]; on a handle that
    [refresh] takes from [w] to a world [w0] where it is reconciled, the
    operation continues from [w0]. *)

Lemma bind_same {A B} (m : M A) (f : A → M B) w w0 :
  m w = m w0 → (m ≫= f) w = (m ≫= f) w0.
Proof. intros H. unfold mbind, M_bind. by rewrite H. Qed.

Lemma after_refresh {A} (k : M A) w w0 h a x c :
  refresh parseVertex h w = Ok (tt, w0) → reconciled w0 h a x c →
  (refresh parseVertex h ;; k) w = (refresh parseVertex h ;; k) w0.
Proof.
  intros E Hr. erewrite bind_Ok by exact E.
  by erewrite bind_Ok by by eapply refresh_reconciled.
Qed.

Lemma refresh_after_refresh w w0 h a x c :
  refresh parseVertex h w = Ok (tt, w0) → reconciled w0 h a x c →
  refresh parseVertex h w = refresh parseVertex h w0.
Proof. intros E Hr. rewrite E. symmetry. by eapply refresh_reconciled. Qed.

Lemma setStatus_after_refresh w w0 h a x c s :
  refresh parseVertex h w = Ok (tt, w0) → reconciled w0 h a x c →
  setStatus parseVertex h s w = setStatus parseVertex h s w0.
Proof. intros E Hr. unfold setStatus. by eapply after_refresh. Qed.

Lemma Status_after_refresh w w0 h a x c :
  refresh parseVertex h w = Ok (tt, w0) → reconciled w0 h a x c →
  Status_of parseVertex h w = Status_of parseVertex h w0.
Proof. intros E Hr. unfold Status_of. by eapply after_refresh. Qed.

Lemma Parents_after_refresh w w0 h a x c :
  refresh parseVertex h w = Ok (tt, w0) → reconciled w0 h a x c →
  Parents parseVertex h w = Parents parseVertex h w0.
Proof. intros E Hr. unfold Parents. by eapply after_refresh. Qed.

Lemma Accept_after_refresh w w0 h a x c :
  refresh parseVertex h w = Ok (tt, w0) → reconciled w0 h a x c →
  Accept parseVertex h w = Accept parseVertex h w0.
Proof.
  intros E Hr. unfold Accept. apply bind_same. by eapply setStatus_after_refresh.
Qed.

Lemma Reject_after_refresh w w0 h a x c :
  refresh parseVertex h w = Ok (tt, w0) → reconciled w0 h a x c →
  Reject parseVertex h w = Reject parseVertex h w0.
Proof.
  intros E Hr. unfold Reject. apply bind_same. by eapply setStatus_after_refresh.
Qed.

Lemma run_op_after_refresh w w0 h a x c o :
  refresh parseVertex h w = Ok (tt, w0) → reconciled w0 h a x c →
  run_op parseVertex h o w = run_op parseVertex h o w0.
Proof.
  intros E Hr. destruct o; simpl.
  - by eapply refresh_after_refresh.
  - by eapply setStatus_after_refresh.
  - apply bind_same. by eapply Accept_after_refresh.
  - apply bind_same. by eapply Reject_after_refresh.
  - apply bind_same. by eapply Status_after_refresh.
Qed.

(** [refresh] of a handle built from an ID alone, whose ID is not cached
    while the cache has room: the handle gets a state of its own, becomes
    the cache's entry, and takes status and body from the store. *)
Lemma refresh_by_id w h i :
  handles w !! h = Some (mkHandle i None None) →
  cache_find i (cache w) = None →
  length (cache w) < cacheSize w →
  let a := length (cells w) in
  let st := default Unknown (statuses (pending w) !! i) in
  let c := mkState true false None (vertices (pending w) !! i) st [] [] in
  refresh parseVertex h w =
  Ok (tt, mkWorld (<[h := mkHandle i None (Some a)]> (handles w))
            (cells w ++ [c])
            ((i, h) :: cache w) (cacheSize w) (edge w) (pending w) (committed w)
            (commitErr w) (events w ++ [EvStatus i; EvVertex i])).
Proof.
  intros Hh Hc Hn a st c.
  assert (h < length (handles w)) as Hlt by by eapply lookup_lt_Some.
  destruct w as [hs cs ca n e p co err ev]. simpl in *.
  unfold refresh. go.
  erewrite bind_Ok; cycle 1.
  { unfold state_UniqueVertex. go. rewrite Hc.
    rewrite decide_False by lia. go. reflexivity. }
  go.
  rewrite decide_True by done.
  erewrite bind_Ok; cycle 1.
  { go. apply update_cell_Ok. lk. }
  unfold derive_body. go.
  erewrite update_cell_Ok by lk.
  unfold set_cells. simpl. rewrite !insert_snoc, <- !app_assoc. done.
Qed.

(** ** The status over a sequence of operations *)

Lemma run_op_settled w h a x b s o :
  settled w h a x b s →
  ∃ w', run_op parseVertex h o w = Ok (tt, w') ∧ settled w' h a x b (status_after o s).
Proof.
  intros (c & Hr & Hb & Hp & Hs). destruct o as [|t| | |]; simpl.
  - exists w. split; [by eapply refresh_reconciled|]. by exists c.
  - destruct (setStatus_reconciled_post w h a x c t Hr)
      as (w' & E & Hr' & Hh' & _).
    exists w'. split; [done|]. exists (with_status t c).
    split; [done|]. split; [done|]. split; [|done].
    by eapply cached_parents_ok_status.
  - eexists. split.
    { erewrite bind_Ok by by eapply Accept_reconciled. reflexivity. }
    eexists. split; [by apply accepted_world_reconciled|].
    split; [done|]. split; [|done]. by apply cleared_parents_ok.
  - eexists. split.
    { erewrite bind_Ok by by eapply Reject_reconciled. reflexivity. }
    eexists. split; [by apply rejected_world_reconciled|].
    split; [done|]. split; [|done]. by apply cleared_parents_ok.
  - exists w. split.
    { erewrite bind_Ok by by eapply Status_reconciled. reflexivity. }
    by exists c.
Qed.

Lemma observe_settled w h a x b s ops :
  settled w h a x b s →
  ∃ w', observe parseVertex h ops w = Ok (statuses_requested s ops, w').
Proof.
  revert w s. induction ops as [|o ops IH]; intros w s Hs.
  - by exists w.
  - destruct (run_op_settled w h a x b s o Hs) as (w1 & E1 & Hs1).
    destruct (IH w1 _ Hs1) as (w2 & E2).
    exists w2. simpl. erewrite bind_Ok by exact E1.
    destruct Hs1 as (c1 & Hr1 & Hb1 & Hp1 & Hst1).
    erewrite bind_Ok by by eapply Status_reconciled.
    erewrite bind_Ok by exact E2. by rewrite Hst1.
Qed.

(** ** What [refresh] establishes

    Whenever [refresh] returns, the handle is reconciled, provided the
    handle the cache holds for its ID (if it is another one) is. *)

Lemma bind_Ok_inv {A B} (m : M A) (f : A → M B) w r :
  (m ≫= f) w = Ok r → ∃ a w', m w = Ok (a, w') ∧ f a w' = Ok r.
Proof.
  unfold mbind, M_bind. destruct (m w) as [[a w']|]; [|done]. intros H. by exists a, w'.
Qed.

Tactic Notation "inv_bind" hyp(H) :=
  let a := fresh "r" in let w := fresh "w" in let E := fresh "E" in
  apply bind_Ok_inv in H as (a & w & E & H).

Tactic Notation "inv_bind" hyp(H) "as" ident(a) ident(w) ident(E) :=
  apply bind_Ok_inv in H as (a & w & E & H).

Lemma load_handle_inv w h x w' :
  load_handle h w = Ok (x, w') → handles w !! h = Some x ∧ w' = w.
Proof.
  unfold load_handle. destruct (handles w !! h); [|done]. intros H.
  injection H as -> ->. done.
Qed.

Lemma load_cell_inv w a c w' :
  load_cell a w = Ok (c, w') → cells w !! a = Some c ∧ w' = w.
Proof.
  unfold load_cell. destruct (cells w !! a); [|done]. intros H.
  injection H as -> ->. done.
Qed.

Lemma cell_of_inv w h a w' :
  cell_of h w = Ok (a, w') → ∃ x, handles w !! h = Some x ∧ v x = Some a ∧ w' = w.
Proof.
  unfold cell_of. intros H. inv_bind H. apply load_handle_inv in E as [Hh ->].
  destruct (v r) eqn:Ev; [|done]. injection H as -> ->. by exists r.
Qed.

Lemma update_cell_inv w a f u w' :
  update_cell a f w = Ok (u, w') →
  ∃ c, cells w !! a = Some c ∧ w' = set_cells (λ cs, <[a := f c]> cs) w.
Proof.
  unfold update_cell. intros H. inv_bind H. apply load_cell_inv in E as [Hc ->].
  injection H as _ <-. by exists r.
Qed.

Lemma holds_same_arenas h a w w' :
  handles w' = handles w → cells w' = cells w → holds h a w → holds h a w'.
Proof.
  intros Hh Hc (x & c & H1 & H2 & H3 & H4). exists x, c.
  unfold reconciled. by rewrite Hh, Hc.
Qed.

Lemma holds_update_cell h a a' f w u w' :
  (∀ c, unique (f c) = unique c) →
  update_cell a' f w = Ok (u, w') → holds h a w → holds h a w'.
Proof.
  intros Hf E (x & c & H1 & H2 & H3 & H4).
  apply update_cell_inv in E as (c' & Hc' & ->).
  destruct (decide (a' = a)) as [->|Hne].
  - exists x, (f c). repeat split; try done; simpl.
    + rewrite list_lookup_insert_eq by by eapply lookup_lt_Some. congruence.
    + by rewrite Hf.
  - exists x, c. repeat split; try done; simpl.
    by rewrite list_lookup_insert_ne.
Qed.

(** Step over an update of a state that keeps the [unique] field. *)
Ltac over_update H := eapply holds_update_cell; [|exact H|]; [done|].

Lemma state_Status_arenas i w s w' :
  state_Status i w = Ok (s, w') → handles w' = handles w ∧ cells w' = cells w.
Proof. unfold state_Status. intros H. by injection H as _ <-. Qed.

Lemma state_SetStatus_arenas i s w u w' :
  state_SetStatus i s w = Ok (u, w') → handles w' = handles w ∧ cells w' = cells w.
Proof. unfold state_SetStatus. intros H. by injection H as _ <-. Qed.

Lemma state_Vertex_arenas i w b w' :
  state_Vertex i w = Ok (b, w') → handles w' = handles w ∧ cells w' = cells w.
Proof. unfold state_Vertex. intros H. by injection H as _ <-. Qed.

Lemma state_SetVertex_arenas b w u w' :
  state_SetVertex b w = Ok (u, w') → handles w' = handles w ∧ cells w' = cells w.
Proof. destruct b; [|done]. intros H. by injection H as _ <-. Qed.

Lemma parseVertex_arenas bs w r w' :
  serializer_parseVertex parseVertex bs w = Ok (r, w') →
  handles w' = handles w ∧ cells w' = cells w.
Proof. unfold serializer_parseVertex. intros H. by injection H as _ <-. Qed.

Lemma ID_of_inv w h i w' : ID_of h w = Ok (i, w') → w' = w.
Proof.
  unfold ID_of. intros H. inv_bind H. apply load_handle_inv in E as [_ ->].
  by injection H as _ <-.
Qed.

Lemma storeAndUpdateStatus_holds h a w u w' :
  storeAndUpdateStatus h w = Ok (u, w') → holds h a w → holds h a w'.
Proof.
  unfold storeAndUpdateStatus. intros H Hh.
  inv_bind H. apply cell_of_inv in E as (x & _ & _ & ->).
  inv_bind H. apply load_cell_inv in E as [_ ->].
  inv_bind H. apply state_SetVertex_arenas in E as [E1 E2].
  apply (holds_same_arenas h a _ _ E1 E2) in Hh.
  inv_bind H. apply ID_of_inv in E as ->.
  inv_bind H. apply state_Status_arenas in E as [E3 E4].
  apply (holds_same_arenas h a _ _ E3 E4) in Hh.
  case_decide.
  - inv_bind H. apply state_SetStatus_arenas in E as [E5 E6].
    apply (holds_same_arenas h a _ _ E5 E6) in Hh.
    inv_bind H. apply cell_of_inv in E as (? & _ & _ & ->).
    by over_update H.
  - inv_bind H. apply cell_of_inv in E as (? & _ & _ & ->).
    by over_update H.
Qed.

Lemma derive_body_holds h a p w u w' :
  derive_body parseVertex h p w = Ok (u, w') → holds h a w → holds h a w'.
Proof.
  unfold derive_body. intros H Hh.
  inv_bind H. apply load_handle_inv in E as [_ ->].
  inv_bind H. apply cell_of_inv in E as (? & _ & _ & ->).
  inv_bind H. apply load_cell_inv in E as [_ ->].
  destruct (vtx r1); [by injection H as _ <-|].
  destruct p; [by over_update H|].
  destruct (bytes r).
  - inv_bind H. apply parseVertex_arenas in E as [E1 E2].
    apply (holds_same_arenas h a _ _ E1 E2) in Hh.
    destruct (r2.2).
    + inv_bind H. eapply storeAndUpdateStatus_holds; [exact H|].
      by over_update E.
    + inv_bind H. inv_bind H.
      over_update H. over_update E0. by over_update E.
  - inv_bind H. apply ID_of_inv in E as ->.
    inv_bind H. apply state_Vertex_arenas in E as [E1 E2].
    apply (holds_same_arenas h a _ _ E1 E2) in Hh.
    by over_update H.
Qed.

Lemma Evict_handles g w u w' : Evict g w = Ok (u, w') → handles w' = handles w.
Proof.
  unfold Evict. intros H. inv_bind H. apply load_handle_inv in E as [_ ->].
  destruct (v r).
  - by apply update_cell_inv in H as (c & _ & ->).
  - by injection H as _ <-.
Qed.

(** The de-duplicator leaves the handles alone; it answers the candidate
    itself, or the handle it has cached for the candidate's ID, and then it
    leaves the states alone too. *)
Lemma state_UniqueVertex_inv h w u w' :
  state_UniqueVertex h w = Ok (u, w') →
  handles w' = handles w ∧
  (u = h ∨ ∃ x, handles w !! h = Some x ∧
                cache_find (vtxID x) (cache w) = Some u ∧ cells w' = cells w).
Proof.
  unfold state_UniqueVertex. intros H.
  inv_bind H. apply load_handle_inv in E as [Hh ->].
  inv_bind H. injection E as <- <-.
  destruct (cache_find (vtxID r) (cache w)) as [g|] eqn:Ef.
  - injection H as <- <-. split; [done|]. right. by exists r.
  - inv_bind H. inv_bind H. injection H as <- <-. injection E0 as _ <-.
    split; [|by left]. simpl.
    case_decide; [|by injection E as _ <-].
    destruct (last (cache w)) as [[k' g']|]; [|by injection E as _ <-].
    inv_bind E. injection E0 as _ <-. by apply Evict_handles in E.
Qed.

Lemma refresh_Ok_reconciled w h w0 :
  (∀ x g, handles w !! h = Some x →
          cache_find (vtxID x) (cache w) = Some g → g ≠ h →
          ∃ a, holds g a w) →
  refresh parseVertex h w = Ok (tt, w0) →
  ∃ a x c, reconciled w0 h a x c.
Proof.
  intros Hcache H. unfold refresh in H.
  inv_bind H as x wx Ex. apply load_handle_inv in Ex as [Hh ->].
  inv_bind H as u1 w1 E1.
  (* the state the handle starts with, allocated if it had none *)
  assert (∃ x1, handles w1 !! h = Some x1 ∧ vtxID x1 = vtxID x ∧
                cache w1 = cache w ∧
                (∀ g, g ≠ h → handles w1 !! g = handles w !! g) ∧
                (∀ a c, cells w !! a = Some c → cells w1 !! a = Some c))
    as (x1 & Hh1 & Hid1 & Hca1 & Hother & Hcells).
  { destruct (v x).
    - injection E1 as _ <-. by exists x.
    - inv_bind E1 as a0 wa Ea. injection Ea as <- <-. injection E1 as _ <-. simpl.
      eexists. split; [by apply list_lookup_insert_eq; eapply lookup_lt_Some|].
      split; [done|]. split; [done|]. split.
      + intros g Hg. by rewrite list_lookup_insert_ne.
      + intros a c Hc. by apply lookup_app_l_Some. }
  clear E1.
  inv_bind H as a1 wa Ea. apply cell_of_inv in Ea as (x1' & Hh1' & Hv1 & ->).
  assert (x1' = x1) as -> by congruence.
  inv_bind H as c1 wc Ec. apply load_cell_inv in Ec as [Hc1 ->].
  destruct (unique c1) eqn:Hu.
  { injection H as <-. by exists a1, x1, c1. }
  inv_bind H as u w2 Eu. apply state_UniqueVertex_inv in Eu as (Hh2 & Hu2).
  inv_bind H as a2 wa Ea. apply cell_of_inv in Ea as (x2 & Hx2 & Hv2 & ->).
  inv_bind H as c2 wc Ec. apply load_cell_inv in Ec as [Hc2 ->].
  inv_bind H as u3 w3 E3.
  assert (∃ a, holds h a w3) as [a Ha].
  { case_decide as Hd.
    - (* the handle itself is the cache's entry *)
      inv_bind E3 as i wi Ei. apply ID_of_inv in Ei as ->.
      inv_bind E3 as st w4 Es. apply state_Status_arenas in Es as [Hh4 Hc4].
      inv_bind E3 as a4 wa Ea. apply cell_of_inv in Ea as (x4 & Hx4 & Hv4 & ->).
      inv_bind E3 as u5 w5 E5.
      apply update_cell_inv in E5 as (c5 & Hc5 & ->).
      apply update_cell_inv in E3 as (c6 & Hc6 & ->).
      exists a4, x4, (with_unique true c6). repeat split; try done; simpl.
      apply list_lookup_insert_eq. rewrite length_insert. by eapply lookup_lt_Some.
    - (* another handle is: adopt its state *)
      destruct Hu2 as [->|(x' & Hx' & Hf & Hcs)]; [done|].
      assert (x' = x1) as -> by congruence.
      destruct (Hcache x u) as (ag & y & cg & Hy & Hvy & Hcg & Hug);
        [done|by rewrite <- Hid1, <- Hca1|done|].
      inv_bind E3 as xh wh Eh. apply load_handle_inv in Eh as [_ ->].
      inv_bind E3 as g wg Eg. apply load_handle_inv in Eg as [Hg ->].
      injection E3 as _ <-.
      rewrite Hh2, Hother in Hg by done. assert (g = y) as -> by congruence.
      exists ag, (mkHandle (vtxID y) (bytes xh) (v y)), cg.
      repeat split; try done; simpl.
      + apply list_lookup_insert_eq. by eapply lookup_lt_Some.
      + rewrite Hcs. by apply Hcells. }
  destruct (derive_body_holds h a _ _ _ _ H Ha) as (xf & cf & Hr).
  by exists a, xf, cf.
Qed.

(** ** The claims *)

(** C1 (amended).  On a handle that [refresh] reconciles, with a body,
    every operation fixes the status observed after it: [refresh] and
    [Status] keep the current one, [setStatus(s)] gives [s], [Accept] gives
    Accepted and [Reject] gives Rejected, whatever the status was.  The
    observed sequence is the sequence of statuses asked for; nothing in the
    handle refuses a step from Accepted to Rejected or back. *)
Theorem observed_statuses_are_requested w w0 h a x c b ops :
  refresh parseVertex h w = Ok (tt, w0) →
  reconciled w0 h a x c → vtx c = Some b → cached_parents_ok w0 c b →
  ∃ w', observe parseVertex h ops w = Ok (statuses_requested (status c) ops, w').
Proof.
  intros E Hr Hb Hp.
  assert (settled w0 h a x b (status c)) as Hs by by exists c.
  destruct ops as [|o ops]; [by exists w|].
  destruct (observe_settled w0 h a x b (status c) (o :: ops) Hs) as (w' & E').
  exists w'. rewrite <- E'. simpl. apply bind_same.
  by eapply run_op_after_refresh.
Qed.

(** C2 (amended).  A conflicting decision is not reported.  [Accept] on a
    handle with a body whose status is Rejected overwrites the status with
    Accepted, in memory and in the store, returns what the commit returns
    and leaves the handle reconciled; [Reject] on a handle whose status is
    Accepted, with or without a body, overwrites it with Rejected in the
    same way.  Neither looks at the status it replaces. *)
Theorem conflicting_decision_overwrites w w0 h a x c :
  refresh parseVertex h w = Ok (tt, w0) →
  reconciled w0 h a x c →
  (∀ b, status c = Rejected → vtx c = Some b → cached_parents_ok w0 c b →
     ∃ w1 c1,
       Accept parseVertex h w = Ok (commitErr w0, w1) ∧
       reconciled w1 h a x c1 ∧ status c1 = Accepted ∧ vtx c1 = Some b ∧
       statuses (pending w1) !! vtxID x = Some Accepted ∧
       refresh parseVertex h w1 = Ok (tt, w1)) ∧
  (status c = Accepted →
     ∃ w2 c2,
       Reject parseVertex h w = Ok (commitErr w0, w2) ∧
       reconciled w2 h a x c2 ∧ status c2 = Rejected ∧ vtx c2 = vtx c ∧
       statuses (pending w2) !! vtxID x = Some Rejected ∧
       refresh parseVertex h w2 = Ok (tt, w2)).
Proof.
  intros E Hr. split.
  - intros b Hs Hb Hp.
    pose proof (accepted_world_reconciled w0 h a x c b Hr) as Hr1.
    do 2 eexists. split.
    { erewrite Accept_after_refresh by done. by eapply Accept_reconciled. }
    split; [exact Hr1|]. split; [done|]. split; [done|].
    split. { simpl. apply statuses_after_lookup. left. by rewrite Hs. }
    by eapply refresh_reconciled.
  - intros Hs.
    pose proof (rejected_world_reconciled w0 h a x c Hr) as Hr2.
    do 2 eexists. split.
    { erewrite Reject_after_refresh by done. by eapply Reject_reconciled. }
    split; [exact Hr2|]. split; [done|]. split; [done|].
    split. { simpl. apply statuses_after_lookup. left. by rewrite Hs. }
    by eapply refresh_reconciled.
Qed.

(** C3 (code defect).  [refresh] of a handle built from bytes, not yet in
    the cache, whose bytes the parser accepts: the branches of the parse
    are swapped, so the handle gets the empty placeholder body instead of
    the parsed one, is marked verified with no error, nothing is written to
    the store and a status of Unknown stays Unknown. *)
Theorem refresh_parse_branches_swapped w h i bs body :
  handles w !! h = Some (mkHandle i (Some bs) None) →
  cache_find i (cache w) = None →
  length (cache w) < cacheSize w →
  parseVertex bs = (Some body, None) →
  let a := length (cells w) in
  let st := default Unknown (statuses (pending w) !! i) in
  refresh parseVertex h w =
  Ok (tt, mkWorld (<[h := mkHandle i (Some bs) (Some a)]> (handles w))
            (cells w ++ [mkState true true None (Some zero_vertex) st [] []])
            ((i, h) :: cache w) (cacheSize w) (edge w) (pending w) (committed w)
            (commitErr w) (events w ++ [EvStatus i; EvParse bs])).
Proof.
  intros Hh Hc Hn Hp a st.
  assert (h < length (handles w)) as Hlt by by eapply lookup_lt_Some.
  destruct w as [hs cs ca n e p co err ev]. simpl in *.
  unfold refresh. go.
  erewrite bind_Ok; cycle 1.
  { unfold state_UniqueVertex. go. rewrite Hc.
    rewrite decide_False by lia. go. reflexivity. }
  go.
  rewrite decide_True by done.
  erewrite bind_Ok; cycle 1.
  { go. apply update_cell_Ok. lk. }
  unfold derive_body. go.
  unfold serializer_parseVertex. go. rewrite Hp. go.
  erewrite update_cell_Ok by lk.
  unfold set_cells. simpl. rewrite !insert_snoc, <- !app_assoc. done.
Qed.

(** [Accept] on a handle that [refresh] reconciles, whose state holds
    the body [b]: the status becomes Accepted in memory and in the store,
    the vertex is added to the frontier and every parent of [b] removed
    from it, the frontier is written to the store, the commit is issued
    and, when it succeeds, all of it is durable.  No other state and no
    other stored status changes. *)
Theorem Accept_updates_frontier w w0 h a x c b :
  refresh parseVertex h w = Ok (tt, w0) →
  reconciled w0 h a x c → vtx c = Some b → cached_parents_ok w0 c b →
  status c ≠ Accepted ∨ statuses (pending w0) !! vtxID x = Some Accepted →
  ∃ w' c',
    Accept parseVertex h w = Ok (commitErr w0, w') ∧
    cells w' !! a = Some c' ∧ status c' = Accepted ∧
    (∀ a', a' ≠ a → cells w' !! a' = cells w0 !! a') ∧
    edge w' = ({[vtxID x]} ∪ edge w0) ∖ list_to_set (parentIDs b) ∧
    frontier (pending w') = edge w' ∧
    statuses (pending w') !! vtxID x = Some Accepted ∧
    (∀ j, j ≠ vtxID x → statuses (pending w') !! j = statuses (pending w0) !! j) ∧
    vertices (pending w') = vertices (pending w0) ∧
    (commitErr w0 = None → committed w' = pending w') ∧
    events w' = events w0 ++ status_events (vtxID x) (status c) Accepted
                  ++ [EvSetEdge (edge w'); EvCommit].
Proof.
  intros E Hr Hb Hp Hs.
  pose proof (accepted_world_reconciled w0 h a x c b Hr) as (_ & _ & Hc1 & _).
  do 2 eexists.
  split.
  { erewrite Accept_after_refresh by done. by eapply Accept_reconciled. }
  split; [exact Hc1|]. split; [done|]. simpl.
  split. { intros a' Hne. by apply list_lookup_insert_ne. }
  split; [done|]. split; [done|].
  split. { by apply statuses_after_lookup. }
  split. { intros j Hj. by apply statuses_after_other. }
  split; [done|]. split; [|done].
  by intros ->.
Qed.

(** The handle a [refresh] leaves when it is built from bytes, is not in
    the cache yet, and its bytes are accepted by the parser: reconciled,
    with the empty placeholder body. *)
Lemma refresh_bytes_reconciled w h i bs body :
  handles w !! h = Some (mkHandle i (Some bs) None) →
  cache_find i (cache w) = None →
  length (cache w) < cacheSize w →
  parseVertex bs = (Some body, None) →
  ∃ w0,
    refresh parseVertex h w = Ok (tt, w0) ∧
    reconciled w0 h (length (cells w)) (mkHandle i (Some bs) (Some (length (cells w))))
      (mkState true true None (Some zero_vertex)
         (default Unknown (statuses (pending w) !! i)) [] []) ∧
    edge w0 = edge w ∧ pending w0 = pending w ∧ committed w0 = committed w ∧
    commitErr w0 = commitErr w.
Proof.
  intros Hh Hc Hn Hp.
  assert (h < length (handles w)) as Hlt by by eapply lookup_lt_Some.
  destruct w as [hs cs ca n e p co err ev]. simpl in *.
  eexists. split.
  { unfold refresh. go.
    erewrite bind_Ok; cycle 1.
    { unfold state_UniqueVertex. go. rewrite Hc.
      rewrite decide_False by lia. go. reflexivity. }
    go.
    rewrite decide_True by done.
    erewrite bind_Ok; cycle 1.
    { go. apply update_cell_Ok. lk. }
    unfold derive_body. go.
    unfold serializer_parseVertex. go. rewrite Hp. go.
    erewrite update_cell_Ok by lk.
    unfold set_cells. simpl. rewrite !insert_snoc. reflexivity. }
  simpl. split; [|done].
  split; [by apply list_lookup_insert_eq|]. split; [done|].
  split; [|done]. apply lookup_snoc.
Qed.

(** C4 (code defect).  [Accept] on a handle built from bytes, not yet in
    the cache, whose bytes the parser accepts as the body of a vertex: the
    status becomes Accepted in the store, the vertex is added to the
    frontier, the frontier is written and committed, but no parent is
    removed from it.  A parent of the parsed body that was in the frontier
    is still in it, in memory and in the store. *)
Theorem Accept_from_bytes_keeps_parents w h i bs body :
  handles w !! h = Some (mkHandle i (Some bs) None) →
  cache_find i (cache w) = None →
  length (cache w) < cacheSize w →
  parseVertex bs = (Some body, None) →
  ∃ w',
    Accept parseVertex h w = Ok (commitErr w, w') ∧
    statuses (pending w') !! i = Some Accepted ∧
    edge w' = {[i]} ∪ edge w ∧
    frontier (pending w') = {[i]} ∪ edge w ∧
    (commitErr w = None → committed w' = pending w') ∧
    (∀ p, p ∈ parentIDs body → p ∈ edge w →
          p ∈ edge w' ∧ p ∈ frontier (pending w')).
Proof.
  intros Hh Hc Hn Hp.
  destruct (refresh_bytes_reconciled w h i bs body Hh Hc Hn Hp)
    as (w0 & E & Hr & He & Hpe & Hco & Herr).
  assert (edge_after_accept i zero_vertex (edge w) = {[i]} ∪ edge w) as Hedge.
  { clear. unfold edge_after_accept. simpl. set_solver. }
  eexists. split.
  { erewrite Accept_after_refresh by done. rewrite <- Herr.
    eapply Accept_reconciled; [exact Hr|done|]. by apply cleared_parents_ok. }
  simpl. rewrite He, Hpe, Hedge.
  split.
  { apply statuses_after_lookup.
    destruct (statuses (pending w) !! i) as [[]|] eqn:Es; simpl; auto; by left. }
  split; [done|]. split; [done|].
  split. { by rewrite Herr; intros ->. }
  intros p _ Hin. clear -Hin. set_solver.
Qed.


(** C6 (amended).  When the commit fails during [Accept] or [Reject], the
    failure is returned to the caller and nothing becomes durable, but
    nothing is rolled back either: the status in memory, the frontier in
    memory and the writes waiting in the store are those of the attempted
    decision. *)
Theorem failed_commit_keeps_decision w w0 h a x c b e :
  refresh parseVertex h w = Ok (tt, w0) →
  reconciled w0 h a x c → vtx c = Some b → cached_parents_ok w0 c b →
  commitErr w0 = Some e →
  (∃ w1 c1,
     Accept parseVertex h w = Ok (Some e, w1) ∧
     committed w1 = committed w0 ∧
     cells w1 !! a = Some c1 ∧ status c1 = Accepted ∧ parents c1 = [] ∧
     edge w1 = ({[vtxID x]} ∪ edge w0) ∖ list_to_set (parentIDs b) ∧
     frontier (pending w1) = edge w1 ∧
     statuses (pending w1) =
       statuses_after (vtxID x) (status c) Accepted (statuses (pending w0))) ∧
  (∃ w2 c2,
     Reject parseVertex h w = Ok (Some e, w2) ∧
     committed w2 = committed w0 ∧
     cells w2 !! a = Some c2 ∧ status c2 = Rejected ∧ parents c2 = [] ∧
     edge w2 = edge w0 ∧
     statuses (pending w2) =
       statuses_after (vtxID x) (status c) Rejected (statuses (pending w0))).
Proof.
  intros E Hr Hb Hp He. split.
  - pose proof (accepted_world_reconciled w0 h a x c b Hr) as (_ & _ & Hc1 & _).
    do 2 eexists. split.
    { erewrite Accept_after_refresh by done. rewrite <- He.
      by eapply Accept_reconciled. }
    split. { simpl. by rewrite He. }
    split; [exact Hc1|]. done.
  - pose proof (rejected_world_reconciled w0 h a x c Hr) as (_ & _ & Hc1 & _).
    do 2 eexists. split.
    { erewrite Reject_after_refresh by done. rewrite <- He.
      by eapply Reject_reconciled. }
    split. { simpl. by rewrite He. }
    split; [exact Hc1|]. done.
Qed.


(** C8.  The eviction hook only clears the canonical flag: it calls neither
    the store nor the parser (the log of calls is unchanged), leaves the
    handles, the cache, the frontier and the store as they are, and in the
    handle's state changes the [unique] field and nothing else. *)
Theorem Evict_only_clears_unique w h x :
  handles w !! h = Some x →
  (∀ a, v x = Some a → is_Some (cells w !! a)) →
  ∃ w', Evict h w = Ok (tt, w') ∧
    handles w' = handles w ∧ cache w' = cache w ∧ cacheSize w' = cacheSize w ∧
    edge w' = edge w ∧ pending w' = pending w ∧ committed w' = committed w ∧
    commitErr w' = commitErr w ∧ events w' = events w ∧
    match v x with
    | None => cells w' = cells w
    | Some a =>
        ∃ c, cells w !! a = Some c ∧
          cells w' = <[a := mkState false (verified c) (validity c) (vtx c)
                               (status c) (parents c) (txs c)]> (cells w)
    end.
Proof.
  intros Hh Hv. unfold Evict. run.
  destruct (v x) as [a|] eqn:Ev.
  - destruct (Hv a eq_refl) as [c Hc].
    erewrite update_cell_Ok by exact Hc.
    eexists. split; [done|]. simpl. repeat split; try done. by exists c.
  - by eexists.
Qed.

(** C9 (code defect).  [Verify] and [Bytes] read the handle without calling
    [refresh].  On a handle that has no state yet, as [Parents] builds
    them, [Verify] dereferences the missing state, and so does [Bytes]
    unless the bytes are known.  On a handle with a state, a verified one
    answers from that state and leaves the world as it is, whether or not
    the state is still the cache's. *)
Theorem Verify_Bytes_skip_refresh w h x :
  handles w !! h = Some x →
  match v x with
  | None =>
      Verify verifyVertex h w = Panic ∧
      Bytes h w = match bytes x with Some b => Ok (b, w) | None => Panic end
  | Some a =>
      ∀ c, cells w !! a = Some c → verified c = true →
           Verify verifyVertex h w = Ok (validity c, w)
  end.
Proof.
  intros Hh. destruct (v x) as [a|] eqn:Hv.
  - intros c Hc Hver. unfold Verify. run. run. by rewrite Hver.
  - split.
    + unfold Verify. apply bind_Panic. by eapply cell_of_nil.
    + unfold Bytes. run. destruct (bytes x); [done|].
      apply bind_Panic. unfold body_of. apply bind_Panic. by eapply cell_of_nil.
Qed.

(** C10.  After its [refresh], [setStatus(s)] on a handle whose status is
    already [s] changes nothing: no call on the store, same world.  When
    the status differs it makes exactly one call, [SetStatus], and sets the
    status in memory and in the store.  A call on the store is made exactly
    when the status differs. *)
Theorem setStatus_writes_iff_changed w w1 h x a c s :
  refresh parseVertex h w = Ok (tt, w1) →
  handles w1 !! h = Some x → v x = Some a → cells w1 !! a = Some c →
  ∃ w', setStatus parseVertex h s w = Ok (tt, w') ∧
    (status c = s → w' = w1) ∧
    (status c ≠ s →
       events w' = events w1 ++ [EvSetStatus (vtxID x) s] ∧
       statuses (pending w') = <[vtxID x := s]> (statuses (pending w1)) ∧
       cells w' = <[a := with_status s c]> (cells w1) ∧
       handles w' = handles w1 ∧ cache w' = cache w1 ∧ edge w' = edge w1 ∧
       vertices (pending w') = vertices (pending w1) ∧
       frontier (pending w') = frontier (pending w1) ∧
       committed w' = committed w1) ∧
    (events w' = events w1 ↔ status c = s).
Proof.
  intros Hr Hh Hv Hc. unfold setStatus.
  erewrite bind_Ok by exact Hr. run. run.
  destruct (decide (status c = s)) as [Hs|Hs].
  - rewrite decide_False by (intros Hn; by apply Hn).
    eexists. split; [done|]. repeat split; try done.
  - rewrite decide_True by done. go. erewrite update_cell_Ok by lk.
    eexists. split; [done|]. simpl. split; [done|]. split; [done|].
    split; [|done]. intros He. exfalso.
    apply (f_equal length) in He. rewrite length_app in He. simpl in He. lia.
Qed.



(** The other branch of the same parse: when the parser returns an error,
    [refresh] does not record it.  It takes the returned pointer as the
    body and goes on to store it, so that either the call does not return
    or the state is left unverified, with no cached error. *)
Lemma refresh_parse_error_not_recorded w h i bs pv e :
  handles w !! h = Some (mkHandle i (Some bs) None) →
  cache_find i (cache w) = None →
  length (cache w) < cacheSize w →
  parseVertex bs = (pv, Some e) →
  refresh parseVertex h w = Panic ∨
  ∃ w0 c, refresh parseVertex h w = Ok (tt, w0) ∧
          cells w0 !! length (cells w) = Some c ∧
          vtx c = pv ∧ verified c = false ∧ validity c = None.
Proof.
  intros Hh Hc Hn Hp.
  assert (h < length (handles w)) as Hlt by by eapply lookup_lt_Some.
  destruct w as [hs cs ca n ed p co err ev]. simpl in *.
  unfold refresh. go.
  erewrite bind_Ok; cycle 1.
  { unfold state_UniqueVertex. go. rewrite Hc.
    rewrite decide_False by lia. go. reflexivity. }
  go.
  rewrite decide_True by done.
  erewrite bind_Ok; cycle 1.
  { go. apply update_cell_Ok. lk. }
  unfold derive_body. go.
  unfold serializer_parseVertex. go. rewrite Hp. go.
  unfold storeAndUpdateStatus. go.
  destruct pv as [g|]; [|by left]. right. go.
  unfold state_Status. go.
  case_decide.
  - go. erewrite update_cell_Ok by lk.
    do 2 eexists. split; [done|]. simpl. rewrite !insert_snoc.
    split; [apply lookup_snoc|]. done.
  - go. erewrite update_cell_Ok by lk.
    do 2 eexists. split; [done|]. simpl. rewrite !insert_snoc.
    split; [apply lookup_snoc|]. done.
Qed.

(** ** Further properties of the handle *)

(** Look-ups through repeated updates of one address, an update of another
    address, or an allocation. *)
Ltac lk' :=
  simpl; rewrite ?insert_snoc, ?list_insert_insert_eq;
  first [ eassumption | apply lookup_snoc | by apply list_lookup_insert_eq
        | by eapply cells_insert_lookup
        | by (rewrite list_lookup_insert_ne by done)
        | by apply lookup_app_l_Some ].

Ltac run' :=
  first
    [ run
    | erewrite bind_Ok by (apply load_handle_Ok; lk')
    | erewrite bind_Ok by (eapply cell_of_Ok; [lk' | first [reflexivity | eassumption]])
    | erewrite bind_Ok by (apply load_cell_Ok; lk')
    | erewrite bind_Ok by (apply ID_of_Ok; lk')
    | erewrite bind_Ok by (apply update_cell_Ok; lk') ].

Ltac go' := repeat first [run' | progress simpl].

(** X1.  [refresh] is idempotent.  When the handle the cache holds for the
    ID (if it is another one) is reconciled, a [refresh] that returns
    leaves the handle reconciled, and a second [refresh] changes nothing
    and calls neither the cache, the store nor the parser. *)
Theorem refresh_idempotent w h w0 :
  (∀ x g, handles w !! h = Some x →
          cache_find (vtxID x) (cache w) = Some g → g ≠ h →
          ∃ a, holds g a w) →
  refresh parseVertex h w = Ok (tt, w0) →
  (∃ a x c, reconciled w0 h a x c) ∧
  refresh parseVertex h w0 = Ok (tt, w0).
Proof.
  intros Hcache E.
  destruct (refresh_Ok_reconciled w h w0 Hcache E) as (a & x & c & Hr).
  split; [by exists a, x, c|]. by eapply refresh_reconciled.
Qed.

Lemma update_cell_handles a f w u w' :
  update_cell a f w = Ok (u, w') → handles w' = handles w.
Proof. intros H. by apply update_cell_inv in H as (c & _ & ->). Qed.

Lemma storeAndUpdateStatus_handles h w u w' :
  storeAndUpdateStatus h w = Ok (u, w') → handles w' = handles w.
Proof.
  unfold storeAndUpdateStatus. intros H.
  inv_bind H as a wa Ea. apply cell_of_inv in Ea as (x & _ & _ & ->).
  inv_bind H as c wc Ec. apply load_cell_inv in Ec as [_ ->].
  inv_bind H as u1 w1 E1. apply state_SetVertex_arenas in E1 as [E1 _].
  inv_bind H as i wi Ei. apply ID_of_inv in Ei as ->.
  inv_bind H as st w2 E2. apply state_Status_arenas in E2 as [E2 _].
  case_decide.
  - inv_bind H as u3 w3 E3. apply state_SetStatus_arenas in E3 as [E3 _].
    inv_bind H as a4 w4 E4. apply cell_of_inv in E4 as (? & _ & _ & ->).
    apply update_cell_handles in H. congruence.
  - inv_bind H as a4 w4 E4. apply cell_of_inv in E4 as (? & _ & _ & ->).
    apply update_cell_handles in H. congruence.
Qed.

Lemma derive_body_handles h p w u w' :
  derive_body parseVertex h p w = Ok (u, w') → handles w' = handles w.
Proof.
  unfold derive_body. intros H.
  inv_bind H as x wx Ex. apply load_handle_inv in Ex as [_ ->].
  inv_bind H as a wa Ea. apply cell_of_inv in Ea as (? & _ & _ & ->).
  inv_bind H as c wc Ec. apply load_cell_inv in Ec as [_ ->].
  destruct (vtx c); [by injection H as _ <-|].
  destruct p; [by eapply update_cell_handles|].
  destruct (bytes x).
  - inv_bind H as r w1 E1. apply parseVertex_arenas in E1 as [E1 _].
    destruct (r.2).
    + inv_bind H as u2 w2 E2. apply update_cell_handles in E2.
      apply storeAndUpdateStatus_handles in H. congruence.
    + inv_bind H as u2 w2 E2. inv_bind H as u3 w3 E3.
      apply update_cell_handles in E2, E3, H. congruence.
  - inv_bind H as i wi Ei. apply ID_of_inv in Ei as ->.
    inv_bind H as b w1 E1. apply state_Vertex_arenas in E1 as [E1 _].
    apply update_cell_handles in H. congruence.
Qed.

(** X2.  [refresh] writes no handle but its own, and of its own it never
    changes the bytes: whatever state the handle adopts, the bytes it was
    built from stay. *)
Theorem refresh_keeps_bytes w h x w0 :
  handles w !! h = Some x →
  refresh parseVertex h w = Ok (tt, w0) →
  (∃ x0, handles w0 !! h = Some x0 ∧ bytes x0 = bytes x) ∧
  length (handles w0) = length (handles w) ∧
  (∀ g, g ≠ h → handles w0 !! g = handles w !! g).
Proof.
  intros Hh H. unfold refresh in H.
  inv_bind H as x' wx Ex. apply load_handle_inv in Ex as [Hh' ->].
  assert (x' = x) as -> by congruence. clear Hh'.
  inv_bind H as u1 w1 E1.
  assert (∃ x1, handles w1 !! h = Some x1 ∧ bytes x1 = bytes x ∧
                length (handles w1) = length (handles w) ∧
                (∀ g, g ≠ h → handles w1 !! g = handles w !! g))
    as (x1 & Hh1 & Hb1 & Hl1 & Ho1).
  { destruct (v x).
    - injection E1 as _ <-. by exists x.
    - inv_bind E1 as a0 wa Ea. injection Ea as <- <-. injection E1 as _ <-. simpl.
      eexists. split; [by apply list_lookup_insert_eq; eapply lookup_lt_Some|].
      split; [done|]. split; [by rewrite length_insert|].
      intros g Hg. by rewrite list_lookup_insert_ne. }
  clear E1.
  inv_bind H as a1 wa Ea. apply cell_of_inv in Ea as (? & _ & _ & ->).
  inv_bind H as c1 wc Ec. apply load_cell_inv in Ec as [_ ->].
  destruct (unique c1).
  { injection H as <-. split; [by exists x1|]. done. }
  inv_bind H as u w2 Eu. apply state_UniqueVertex_inv in Eu as (Hh2 & _).
  inv_bind H as a2 wa Ea. apply cell_of_inv in Ea as (? & _ & _ & ->).
  inv_bind H as c2 wc Ec. apply load_cell_inv in Ec as [_ ->].
  inv_bind H as u3 w3 E3.
  apply derive_body_handles in H. rewrite H. clear H.
  case_decide as Hd.
  - inv_bind E3 as i wi Ei. apply ID_of_inv in Ei as ->.
    inv_bind E3 as st w4 Es. apply state_Status_arenas in Es as [Hh4 _].
    inv_bind E3 as a4 wa Ea. apply cell_of_inv in Ea as (? & _ & _ & ->).
    inv_bind E3 as u5 w5 E5.
    apply update_cell_handles in E5, E3.
    rewrite E3, E5, Hh4, Hh2. split; [by exists x1|]. done.
  - inv_bind E3 as xh wh Eh. apply load_handle_inv in Eh as [Hxh ->].
    inv_bind E3 as g wg Eg. apply load_handle_inv in Eg as [_ ->].
    injection E3 as _ <-. simpl. rewrite Hh2 in *.
    assert (xh = x1) as -> by congruence.
    split; [|split].
    + eexists. split; [by apply list_lookup_insert_eq; eapply lookup_lt_Some|]. done.
    + by rewrite length_insert.
    + intros g' Hg'. rewrite list_lookup_insert_ne by done. by apply Ho1.
Qed.

(** The world a [refresh] leaves when the handle has no state yet and the
    cache holds its ID under another handle with a body. *)
Lemma refresh_cached_world w h x g y ag cg b :
  handles w !! h = Some x → v x = None →
  cache_find (vtxID x) (cache w) = Some g → g ≠ h →
  handles w !! g = Some y → v y = Some ag →
  cells w !! ag = Some cg → vtx cg = Some b →
  refresh parseVertex h w =
  Ok (tt, mkWorld (<[h := mkHandle (vtxID y) (bytes x) (Some ag)]> (handles w))
            (cells w ++ [zero_state])
            ((vtxID x, g) :: cache_remove (vtxID x) (cache w))
            (cacheSize w) (edge w) (pending w) (committed w) (commitErr w)
            (events w)).
Proof.
  intros Hh Hv Hf Hne Hg Hvy Hcg Hb.
  assert (h < length (handles w)) as Hlt by by eapply lookup_lt_Some.
  destruct w as [hs cs ca n ed p co err ev]. simpl in *.
  unfold refresh. run. rewrite Hv. go.
  erewrite bind_Ok; cycle 1.
  { unfold state_UniqueVertex. go. rewrite Hf. go. reflexivity. }
  go. rewrite decide_False by done.
  erewrite bind_Ok; cycle 1.
  { run. erewrite bind_Ok; cycle 1.
    { apply load_handle_Ok. simpl. rewrite list_lookup_insert_ne by done. exact Hg. }
    reflexivity. }
  unfold set_handles, set_cache, set_cells. simpl.
  rewrite list_insert_insert_eq, Hvy.
  unfold derive_body. run. run.
  erewrite bind_Ok; cycle 1.
  { apply load_cell_Ok. simpl. by apply lookup_app_l_Some. }
  rewrite Hb. done.
Qed.

(** X3.  A handle that has no state yet, built from an ID or from bytes,
    whose ID the cache holds under another handle with a body: [refresh]
    makes the handle share the cached handle's state and keeps its own
    bytes; the cached handle and the state stay as they are.  The bytes
    are not parsed and the store is not called. *)
Theorem refresh_adopts_cached_state w h x g y ag cg b :
  handles w !! h = Some x → v x = None →
  cache_find (vtxID x) (cache w) = Some g → g ≠ h →
  handles w !! g = Some y → v y = Some ag →
  cells w !! ag = Some cg → vtx cg = Some b →
  ∃ w', refresh parseVertex h w = Ok (tt, w') ∧
    handles w' !! h = Some (mkHandle (vtxID y) (bytes x) (Some ag)) ∧
    handles w' !! g = Some y ∧
    cells w' !! ag = Some cg ∧
    cache_find (vtxID x) (cache w') = Some g ∧
    edge w' = edge w ∧ pending w' = pending w ∧ committed w' = committed w ∧
    events w' = events w.
Proof.
  intros Hh Hv Hf Hne Hg Hvy Hcg Hb.
  eexists. split; [by eapply refresh_cached_world|]. simpl.
  split; [apply list_lookup_insert_eq; by eapply lookup_lt_Some|].
  split; [by rewrite list_lookup_insert_ne|].
  split; [by apply lookup_app_l_Some|].
  split; [by rewrite decide_True|done].
Qed.



(** X5.  [Verify] validates once.  On a handle with a state and a body that
    is not verified yet it answers what the validator says of the body and
    records it, touching nothing else; from then on it answers the recorded
    result and leaves the world as it is. *)
Theorem Verify_caches_result w h x a c b :
  handles w !! h = Some x → v x = Some a → cells w !! a = Some c →
  verified c = false → vtx c = Some b →
  ∃ w1, Verify verifyVertex h w = Ok (verifyVertex b, w1) ∧
    w1 = set_cells (λ cs, <[a := with_verified true (with_validity (verifyVertex b) c)]> cs) w ∧
    Verify verifyVertex h w1 = Ok (verifyVertex b, w1).
Proof.
  intros Hh Hv Hc Hver Hb.
  eexists. split; [|split; [reflexivity|]].
  - unfold Verify. run. run. rewrite Hver.
    erewrite bind_Ok by by eapply body_of_Ok.
    erewrite bind_Ok by (by apply update_cell_Ok).
    erewrite bind_Ok by (apply update_cell_Ok; simpl; by eapply cells_insert_lookup).
    erewrite bind_Ok by (apply load_cell_Ok; simpl;
                         eapply cells_insert_lookup; by eapply cells_insert_lookup).
    unfold set_cells. simpl. rewrite list_insert_insert_eq. done.
  - unfold Verify. erewrite bind_Ok by (eapply cell_of_Ok; [exact Hh|exact Hv]).
    erewrite bind_Ok by (apply load_cell_Ok; simpl; by eapply cells_insert_lookup).
    done.
Qed.

(** X6.  [Parents] builds its handles once.  On a handle that [refresh]
    reconciles, with a body, it answers handles whose IDs are the parent
    IDs of the body, in order, and a second call answers the same handles
    and changes nothing. *)
Theorem Parents_cached w w0 h a x c b :
  refresh parseVertex h w = Ok (tt, w0) →
  reconciled w0 h a x c → vtx c = Some b → cached_parents_ok w0 c b →
  ∃ ps w1, Parents parseVertex h w = Ok (ps, w1) ∧
    parent_ids w1 ps = Some <$> parentIDs b ∧
    Parents parseVertex h w1 = Ok (ps, w1).
Proof.
  intros E Hr Hb Hp. pose proof Hr as (Hh & Hv & Hc & Hu).
  erewrite Parents_after_refresh by done.
  rewrite (Parents_reconciled w0 h a x c b Hr Hb).
  case_decide as Hl.
  - exists (parents c), w0. split; [done|]. split; [by apply Hp|].
    rewrite (Parents_reconciled w0 h a x c b Hr Hb). by rewrite decide_True.
  - cbv zeta. do 2 eexists. split; [done|].
    split; [by eapply parent_ids_fresh|].
    erewrite (Parents_reconciled _ h a x
                (with_parents (seq (length (handles w0)) (length (parentIDs b))) c) b);
      cycle 1.
    { repeat split; [by apply lookup_app_l_Some|done| |done].
      simpl. by eapply cells_insert_lookup. }
    { done. }
    simpl. rewrite decide_True by by rewrite length_seq. done.
Qed.

(** X7.  [Txs] on a handle that [refresh] reconciles, with a body: the
    answer has as many entries as the body has transactions, it is the
    body's list whenever no list was cached, and a second call answers the
    same and changes nothing. *)
Theorem Txs_cached w w0 h a x c b :
  refresh parseVertex h w = Ok (tt, w0) →
  reconciled w0 h a x c → vtx c = Some b →
  ∃ ts w1, Txs parseVertex h w = Ok (ts, w1) ∧
    length ts = length (vtx_txs b) ∧
    (txs c = [] → ts = vtx_txs b) ∧
    Txs parseVertex h w1 = Ok (ts, w1).
Proof.
  intros E Hr Hb. pose proof Hr as (Hh & Hv & Hc & Hu).
  assert (Txs parseVertex h w = Txs parseVertex h w0) as ->.
  { unfold Txs. by eapply after_refresh. }
  assert (∀ w' c', reconciled w' h a x c' → vtx c' = Some b →
            length (vtx_txs b) = length (txs c') →
            Txs parseVertex h w' = Ok (txs c', w')) as Hsame.
  { intros w' c' Hr' Hb' Hl. pose proof Hr' as (Hh' & Hv' & Hc' & Hu').
    unfold Txs. erewrite bind_Ok by by eapply refresh_reconciled.
    erewrite bind_Ok by by eapply body_of_Ok.
    run. run. rewrite decide_False by (intros Hn; by apply Hn). go. done. }
  destruct (decide (length (vtx_txs b) = length (txs c))) as [Hl|Hl].
  - exists (txs c), w0. rewrite (Hsame w0 c) by done.
    split; [done|]. split; [done|]. split; [|done].
    intros Hnil. rewrite Hnil in Hl. destruct (vtx_txs b); [done|discriminate].
  - exists (vtx_txs b). eexists. split.
    { unfold Txs. erewrite bind_Ok by by eapply refresh_reconciled.
      erewrite bind_Ok by by eapply body_of_Ok.
      run. run. rewrite decide_True by done. go'. reflexivity. }
    split; [done|]. split; [done|].
    erewrite (Hsame _ (with_txs (vtx_txs b) c)); [done| |done|done].
    repeat split; try done. simpl. by eapply cells_insert_lookup.
Qed.

Lemma body_of_nil w h x a c :
  handles w !! h = Some x → v x = Some a → cells w !! a = Some c → vtx c = None →
  body_of h w = Panic.
Proof.
  intros Hh Hv Hc Hb. unfold body_of.
  erewrite bind_Ok by by eapply cell_of_Ok.
  erewrite bind_Ok by by apply load_cell_Ok.
  by rewrite Hb.
Qed.

Lemma Parents_no_body w h a x c :
  reconciled w h a x c → vtx c = None → Parents parseVertex h w = Panic.
Proof.
  intros Hr Hb. pose proof Hr as (Hh & Hv & Hc & Hu). unfold Parents.
  erewrite bind_Ok by by eapply refresh_reconciled.
  run. run. apply bind_Panic. by eapply body_of_nil.
Qed.

(** X8.  A handle whose body cannot be derived (its state has none after
    [refresh]) still answers [Status] and can be rejected, but [Height],
    [Parents], [Txs] and [Accept] dereference the missing body. *)
Theorem accessors_need_a_body w w0 h a x c :
  refresh parseVertex h w = Ok (tt, w0) →
  reconciled w0 h a x c → vtx c = None →
  Status_of parseVertex h w = Ok (status c, w0) ∧
  Height parseVertex h w = Panic ∧
  Parents parseVertex h w = Panic ∧
  Txs parseVertex h w = Panic ∧
  Accept parseVertex h w = Panic ∧
  Reject parseVertex h w = Ok (commitErr w0, rejected_world x a c w0).
Proof.
  intros E Hr Hb. pose proof Hr as (Hh & Hv & Hc & Hu).
  split. { erewrite Status_after_refresh by done. by eapply Status_reconciled. }
  split.
  { unfold Height. erewrite bind_Ok by exact E. apply bind_Panic.
    by eapply body_of_nil. }
  split. { erewrite Parents_after_refresh by done. by eapply Parents_no_body. }
  split.
  { unfold Txs. erewrite bind_Ok by exact E. apply bind_Panic.
    by eapply body_of_nil. }
  split.
  { erewrite Accept_after_refresh by done. unfold Accept.
    destruct (setStatus_reconciled_post w0 h a x c Accepted Hr)
      as (w1 & E1 & Hr1 & _).
    erewrite bind_Ok by exact E1.
    erewrite bind_Ok by (eapply ID_of_Ok; apply Hr1).
    erewrite bind_Ok by reflexivity.
    apply bind_Panic.
    eapply (Parents_no_body _ h a x (with_status Accepted c)); [exact Hr1|done]. }
  erewrite Reject_after_refresh by done. by eapply Reject_reconciled.
Qed.

(** X9.  [setVertex] gives a body to a handle that has none and does
    nothing to a handle that has one.  When it sets the body it stores it
    and moves the status to Processing, whatever the status was, writing
    the status to the store when it changes. *)
Theorem setVertex_sets_body_once w w0 h a x c b' :
  refresh parseVertex h w = Ok (tt, w0) →
  reconciled w0 h a x c →
  match vtx c with
  | Some _ => setVertex parseVertex h (Some b') w = Ok (tt, w0)
  | None =>
      ∃ w', setVertex parseVertex h (Some b') w = Ok (tt, w') ∧
        cells w' = <[a := with_status Processing (with_vtx (Some b') c)]> (cells w0) ∧
        vertices (pending w') = <[id b' := b']> (vertices (pending w0)) ∧
        statuses (pending w') =
          statuses_after (vtxID x) (status c) Processing (statuses (pending w0)) ∧
        frontier (pending w') = frontier (pending w0) ∧
        handles w' = handles w0 ∧ cache w' = cache w0 ∧ edge w' = edge w0 ∧
        committed w' = committed w0 ∧
        events w' = events w0 ++ [EvSetVertex b']
                      ++ status_events (vtxID x) (status c) Processing
  end.
Proof.
  intros E Hr. pose proof Hr as (Hh & Hv & Hc & Hu).
  assert (setVertex parseVertex h (Some b') w = setVertex parseVertex h (Some b') w0) as ->.
  { unfold setVertex. by eapply after_refresh. }
  unfold setVertex. erewrite bind_Ok by by eapply refresh_reconciled.
  run. run. destruct (vtx c) eqn:Hb; [done|].
  erewrite bind_Ok by by apply update_cell_Ok.
  erewrite bind_Ok by reflexivity.
  set (w2 := set_pending _ _).
  assert (reconciled w2 h a x (with_vtx (Some b') c)) as Hr2.
  { repeat split; try done. simpl. by eapply cells_insert_lookup. }
  destruct (setStatus_reconciled_post w2 h a x _ Processing Hr2)
    as (w' & E' & _ & Hh' & Hca' & _ & He' & Hco' & _ & Hcl' & Hpe' & Hev').
  exists w'. split; [exact E'|].
  rewrite Hcl', Hpe', Hh', Hca', He', Hco', Hev'. simpl.
  rewrite list_insert_insert_eq, <- app_assoc. done.
Qed.

(** X10.  [storeAndUpdateStatus] on a handle with a body stores the body
    and leaves the status in memory equal to the status in the store, never
    Unknown: an Unknown vertex becomes Processing, in memory and in the
    store, and any other stored status is taken as it is. *)
Theorem storeAndUpdateStatus_syncs_status w h x a c b :
  handles w !! h = Some x → v x = Some a → cells w !! a = Some c → vtx c = Some b →
  let st := default Unknown (statuses (pending w) !! vtxID x) in
  let st' := if decide (st = Unknown) then Processing else st in
  ∃ w', storeAndUpdateStatus h w = Ok (tt, w') ∧
    cells w' = <[a := with_status st' c]> (cells w) ∧
    st' ≠ Unknown ∧
    default Unknown (statuses (pending w') !! vtxID x) = st' ∧
    vertices (pending w') = <[id b := b]> (vertices (pending w)) ∧
    (st ≠ Unknown → statuses (pending w') = statuses (pending w)) ∧
    handles w' = handles w ∧ edge w' = edge w ∧
    frontier (pending w') = frontier (pending w) ∧ committed w' = committed w.
Proof.
  intros Hh Hv Hc Hb st st'. subst st'.
  unfold storeAndUpdateStatus. run. run. rewrite Hb.
  erewrite bind_Ok by reflexivity. run.
  erewrite bind_Ok by reflexivity. simpl. fold st.
  destruct (decide (st = Unknown)) as [Hs|Hs].
  - erewrite bind_Ok by reflexivity. run.
    erewrite update_cell_Ok by exact Hc.
    eexists. split; [done|]. simpl.
    split; [done|]. split; [done|]. split; [by rewrite lookup_insert_eq|].
    split; [done|]. split; [done|]. done.
  - run. erewrite update_cell_Ok by exact Hc.
    eexists. split; [done|]. simpl. done.
Qed.

(** X11.  [Reject] writes the status and nothing else.  On a handle that
    [refresh] reconciles, with or without a body, it leaves the frontier in
    memory and in the store, the stored bodies, the other stored statuses,
    the other states, the handles and the cache as they are, and calls the
    store for the status, when it changes, and for the commit only. *)
Theorem Reject_writes_status_only w w0 h a x c :
  refresh parseVertex h w = Ok (tt, w0) →
  reconciled w0 h a x c →
  ∃ w', Reject parseVertex h w = Ok (commitErr w0, w') ∧
    cells w' = <[a := with_parents [] (with_status Rejected c)]> (cells w0) ∧
    handles w' = handles w0 ∧ cache w' = cache w0 ∧
    edge w' = edge w0 ∧ frontier (pending w') = frontier (pending w0) ∧
    vertices (pending w') = vertices (pending w0) ∧
    (∀ j, j ≠ vtxID x → statuses (pending w') !! j = statuses (pending w0) !! j) ∧
    (commitErr w0 = None → committed w' = pending w') ∧
    events w' = events w0 ++ status_events (vtxID x) (status c) Rejected ++ [EvCommit].
Proof.
  intros E Hr. eexists. split.
  { erewrite Reject_after_refresh by done. by eapply Reject_reconciled. }
  simpl. repeat split; try done.
  - intros j Hj. by apply statuses_after_other.
  - by intros ->.
Qed.

Lemma parent_ids_same_ids w w' ps :
  (∀ p, vtxID <$> handles w' !! p = vtxID <$> handles w !! p) →
  parent_ids w' ps = parent_ids w ps.
Proof.
  intros H. unfold parent_ids. induction ps as [|p ps IH]; [done|].
  rewrite !fmap_cons. by rewrite H, IH.
Qed.

(** X12.  Two handles of one vertex share its decision.  Let [g] be the
    reconciled handle the cache holds for a vertex with a body, and [h] a
    second handle for the same ID that has no state yet.  A decision taken
    through [g] after [h] was refreshed is what [Status] answers on [h],
    and a decision taken through [h] is what [Status] answers on [g]. *)
Theorem decision_shared_between_handles w h x g y ag cg b :
  handles w !! h = Some x → v x = None → vtxID x = vtxID y →
  cache_find (vtxID x) (cache w) = Some g → g ≠ h →
  reconciled w g ag y cg → vtx cg = Some b → cached_parents_ok w cg b →
  (∃ w', (refresh parseVertex h ;; Accept parseVertex g ;; Status_of parseVertex h) w
         = Ok (Accepted, w')) ∧
  (∃ w', (Accept parseVertex h ;; Status_of parseVertex g) w = Ok (Accepted, w')) ∧
  (∃ w', (Reject parseVertex h ;; Status_of parseVertex g) w = Ok (Rejected, w')).
Proof.
  intros Hh Hv Hid Hf Hne (Hg & Hvy & Hcg & Hug) Hb Hp.
  pose proof (refresh_cached_world w h x g y ag cg b
                Hh Hv Hf Hne Hg Hvy Hcg Hb) as E.
  set (x' := mkHandle (vtxID y) (bytes x) (Some ag)) in *.
  set (w1 := mkWorld _ _ _ _ _ _ _ _ _) in E.
  assert (h < length (handles w)) as Hlt by by eapply lookup_lt_Some.
  assert (reconciled w1 h ag x' cg) as Hrh.
  { repeat split; try done; simpl.
    - by apply list_lookup_insert_eq.
    - by apply lookup_app_l_Some. }
  assert (reconciled w1 g ag y cg) as Hrg.
  { repeat split; try done; simpl.
    - by rewrite list_lookup_insert_ne.
    - by apply lookup_app_l_Some. }
  assert (cached_parents_ok w1 cg b) as Hp1.
  { intros Hl. rewrite <- (Hp Hl). apply parent_ids_same_ids. intros p. simpl.
    destruct (decide (p = h)) as [->|Hph].
    - rewrite list_lookup_insert_eq by done. rewrite Hh. simpl. by rewrite Hid.
    - by rewrite list_lookup_insert_ne. }
  split; [|split].
  - erewrite bind_Ok by exact E.
    erewrite bind_Ok by (by eapply Accept_reconciled).
    assert (reconciled (accepted_world y ag cg b w1) h ag x'
              (with_parents [] (with_status Accepted cg))) as Hr2;
      [|eexists; exact (Status_reconciled _ _ _ _ _ Hr2)].
    repeat split; try done; simpl.
    + case_decide; [by apply list_lookup_insert_eq|].
      apply lookup_app_l_Some. by apply list_lookup_insert_eq.
    + eapply cells_insert_lookup. by apply lookup_app_l_Some.
  - erewrite bind_Ok; cycle 1.
    { erewrite Accept_after_refresh by done. by eapply Accept_reconciled. }
    assert (reconciled (accepted_world x' ag cg b w1) g ag y
              (with_parents [] (with_status Accepted cg))) as Hr2;
      [|eexists; exact (Status_reconciled _ _ _ _ _ Hr2)].
    repeat split; try done; simpl.
    + case_decide; [by rewrite list_lookup_insert_ne|].
      apply lookup_app_l_Some. by rewrite list_lookup_insert_ne.
    + eapply cells_insert_lookup. by apply lookup_app_l_Some.
  - erewrite bind_Ok; cycle 1.
    { erewrite Reject_after_refresh by done. by eapply Reject_reconciled. }
    assert (reconciled (rejected_world x' ag cg w1) g ag y
              (with_parents [] (with_status Rejected cg))) as Hr2;
      [|eexists; exact (Status_reconciled _ _ _ _ _ Hr2)].
    repeat split; try done; simpl.
    + by rewrite list_lookup_insert_ne.
    + eapply cells_insert_lookup. by apply lookup_app_l_Some.
Qed.
End Reconciled.

(** ** The operations on the small DAG *)

(** The first [refresh] of the handle built from the ID of vertex 3. *)
Lemma refresh_world_new s err :
  refresh demo_parse 0 (world_new s err) = Ok (tt, world_V s err).
Proof. apply (refresh_by_id demo_parse (world_new s err) 0 3%N); [done|done|simpl; lia]. Qed.

(** [Status] on a handle known by ID only reconciles it and answers from
    the store. *)
Example Status_by_id : eval (Status_of demo_parse 0) world_by_id = Some Accepted.
Proof. vm_compute. reflexivity. Qed.

(** With the placeholder body, [Accept] of vertex 3 built from bytes finds
    no parents to remove from the frontier, and [Verify] answers without
    running the validator. *)
Example Accept_from_bytes :
  (elements ∘ edge) <$> exec (Accept demo_parse 0) world_bytes = Some [2%N; 3%N; 1%N] ∧
  eval (refresh demo_parse 0 ;; Verify demo_verify 0) world_bytes = Some None ∧
  demo_verify zero_vertex = Some "no parents"%string.
Proof. repeat split; vm_compute; reflexivity. Qed.

(** Bytes the parser refuses: the error is not recorded on the handle, and
    the nil body the parser returned goes to [storeAndUpdateStatus], which
    needs one. *)
Example refresh_parse_error :
  demo_parse [] = (None, Some "empty vertex"%string) ∧
  refresh demo_parse 0
    (mkWorld [mkHandle 3%N (Some []) None] [] [] 4 {[1%N; 2%N]}
             (store_V Unknown) (store_V Unknown) None []) = Panic.
Proof. split; vm_compute; reflexivity. Qed.

(** C1: [Accept] followed by [Reject] is observed as Accepted, then
    Rejected. *)
Lemma status_reverts_counterexample :
  eval (observe demo_parse 0 [OpStatus; OpAccept; OpReject]) (world_new Processing None)
    = Some [Processing; Accepted; Rejected] ∧
  follows_lifecycle [Processing; Accepted; Rejected] = false.
Proof. split; vm_compute; reflexivity. Qed.

Lemma observed_statuses_are_requested_witness :
  refresh demo_parse 0 (world_new Processing None) = Ok (tt, world_V Processing None) ∧
  reconciled (world_V Processing None) 0 0 handle_V (state_V Processing) ∧
  vtx (state_V Processing) = Some body_V ∧
  cached_parents_ok (world_V Processing None) (state_V Processing) body_V ∧
  ∃ w', observe demo_parse 0 [OpStatus; OpAccept; OpReject] (world_new Processing None)
        = Ok ([Processing; Accepted; Rejected], w').
Proof.
  assert (H1 : refresh demo_parse 0 (world_new Processing None)
               = Ok (tt, world_V Processing None)) by (vm_compute; reflexivity).
  assert (H2 : reconciled (world_V Processing None) 0 0 handle_V (state_V Processing))
    by (repeat split; reflexivity).
  assert (H3 : cached_parents_ok (world_V Processing None) (state_V Processing) body_V)
    by (intros H; simpl in H; discriminate H).
  split; [exact H1|]. split; [exact H2|]. split; [reflexivity|]. split; [exact H3|].
  exact (observed_statuses_are_requested demo_parse (world_new Processing None)
           (world_V Processing None) 0 0 handle_V (state_V Processing) body_V
           [OpStatus; OpAccept; OpReject] H1 H2 eq_refl H3).
Defined.

(** C2: [Accept] on the rejected vertex 3 returns no error and the stored
    status becomes Accepted. *)
Lemma conflict_not_reported_counterexample :
  eval (Accept demo_parse 0) (world_new Rejected None) = Some None ∧
  eval (Accept demo_parse 0 ;; Status_of demo_parse 0) (world_new Rejected None)
    = Some Accepted ∧
  (λ w, statuses (pending w) !! 3%N) <$> exec (Accept demo_parse 0) (world_new Rejected None)
    = Some (Some Accepted).
Proof. repeat split; vm_compute; reflexivity. Qed.

Lemma conflicting_decision_overwrites_witness :
  refresh demo_parse 0 (world_new Rejected None) = Ok (tt, world_V Rejected None) ∧
  refresh demo_parse 0 (world_new Accepted None) = Ok (tt, world_V Accepted None) ∧
  (∃ w1 c1,
     Accept demo_parse 0 (world_new Rejected None) = Ok (None, w1) ∧
     reconciled w1 0 0 handle_V c1 ∧ status c1 = Accepted ∧ vtx c1 = Some body_V ∧
     statuses (pending w1) !! 3%N = Some Accepted ∧
     refresh demo_parse 0 w1 = Ok (tt, w1)) ∧
  (∃ w2 c2,
     Reject demo_parse 0 (world_new Accepted None) = Ok (None, w2) ∧
     reconciled w2 0 0 handle_V c2 ∧ status c2 = Rejected ∧ vtx c2 = Some body_V ∧
     statuses (pending w2) !! 3%N = Some Rejected ∧
     refresh demo_parse 0 w2 = Ok (tt, w2)).
Proof.
  assert (H1 : refresh demo_parse 0 (world_new Rejected None)
               = Ok (tt, world_V Rejected None)) by (vm_compute; reflexivity).
  assert (H2 : reconciled (world_V Rejected None) 0 0 handle_V (state_V Rejected))
    by (repeat split; reflexivity).
  assert (H3 : cached_parents_ok (world_V Rejected None) (state_V Rejected) body_V)
    by (intros H; simpl in H; discriminate H).
  assert (H4 : refresh demo_parse 0 (world_new Accepted None)
               = Ok (tt, world_V Accepted None)) by (vm_compute; reflexivity).
  assert (H5 : reconciled (world_V Accepted None) 0 0 handle_V (state_V Accepted))
    by (repeat split; reflexivity).
  split; [exact H1|]. split; [exact H4|]. split.
  - exact (proj1 (conflicting_decision_overwrites demo_parse (world_new Rejected None)
                    (world_V Rejected None) 0 0 handle_V (state_V Rejected) H1 H2)
             body_V eq_refl eq_refl H3).
  - exact (proj2 (conflicting_decision_overwrites demo_parse (world_new Accepted None)
                    (world_V Accepted None) 0 0 handle_V (state_V Accepted) H4 H5)
             eq_refl).
Defined.

Lemma refresh_parse_branches_swapped_witness :
  handles world_bytes !! 0 = Some (mkHandle 3%N (Some [Byte.x01]) None) ∧
  cache_find 3%N (cache world_bytes) = None ∧
  length (cache world_bytes) < cacheSize world_bytes ∧
  demo_parse [Byte.x01] = (Some (mkVertex 3%N [1%N; 2%N] 5%N [] [Byte.x01]), None) ∧
  refresh demo_parse 0 world_bytes =
  Ok (tt, mkWorld [mkHandle 3%N (Some [Byte.x01]) (Some 0)]
            [mkState true true None (Some zero_vertex) Unknown [] []]
            [(3%N, 0)] 4 {[1%N; 2%N]} (store_V Unknown) (store_V Unknown) None
            [EvStatus 3%N; EvParse [Byte.x01]]).
Proof.
  split; [reflexivity|]. split; [reflexivity|]. split; [simpl; lia|].
  split; [reflexivity|].
  apply (refresh_parse_branches_swapped demo_parse world_bytes 0 3%N [Byte.x01]
           (mkVertex 3%N [1%N; 2%N] 5%N [] [Byte.x01]));
    [reflexivity | reflexivity | simpl; lia | reflexivity].
Defined.

(** The scenario of the specification on a handle built from the ID, whose
    body comes from the store: vertex 3 with parents 1 and 2, both
    accepted, and frontier {1, 2}. *)
Lemma Accept_updates_frontier_witness :
  refresh demo_parse 0 (world_new Processing None) = Ok (tt, world_V Processing None) ∧
  reconciled (world_V Processing None) 0 0 handle_V (state_V Processing) ∧
  vtx (state_V Processing) = Some body_V ∧
  cached_parents_ok (world_V Processing None) (state_V Processing) body_V ∧
  (status (state_V Processing) ≠ Accepted ∨
   statuses (pending (world_V Processing None)) !! 3%N = Some Accepted) ∧
  ∃ w',
    Accept demo_parse 0 (world_new Processing None) = Ok (None, w') ∧
    edge w' = {[3%N]} ∧ frontier (pending w') = {[3%N]} ∧
    statuses (pending w') !! 3%N = Some Accepted ∧
    statuses (pending w') !! 1%N = Some Accepted ∧
    statuses (pending w') !! 2%N = Some Accepted ∧
    committed w' = pending w'.
Proof.
  assert (H1 : refresh demo_parse 0 (world_new Processing None)
               = Ok (tt, world_V Processing None)) by (vm_compute; reflexivity).
  assert (H2 : reconciled (world_V Processing None) 0 0 handle_V (state_V Processing))
    by (repeat split; reflexivity).
  assert (H3 : cached_parents_ok (world_V Processing None) (state_V Processing) body_V)
    by (intros H; simpl in H; discriminate H).
  assert (H4 : status (state_V Processing) ≠ Accepted ∨
               statuses (pending (world_V Processing None)) !! 3%N = Some Accepted)
    by (left; discriminate).
  split; [exact H1|]. split; [exact H2|]. split; [reflexivity|]. split; [exact H3|].
  split; [exact H4|].
  destruct (Accept_updates_frontier demo_parse (world_new Processing None)
              (world_V Processing None) 0 0 handle_V (state_V Processing) body_V
              H1 H2 eq_refl H3 H4)
    as (w' & c' & E & _ & _ & _ & He & Hf & Hs & Ho & _ & Hc & _).
  exists w'. split; [exact E|].
  assert (edge w' = {[3%N]}) as He'.
  { rewrite He. vm_compute. reflexivity. }
  split; [exact He'|]. split; [by rewrite Hf|]. split; [exact Hs|].
  split; [exact (Ho 1%N ltac:(discriminate))|].
  split; [exact (Ho 2%N ltac:(discriminate))|].
  by apply Hc.
Defined.

(** C4: the same scenario on a handle built from the bytes of vertex 3.
    The parser answers the body with parents 1 and 2, and both are still
    in the frontier after [Accept]. *)
Lemma Accept_from_bytes_keeps_parents_witness :
  handles world_bytes !! 0 = Some (mkHandle 3%N (Some [Byte.x01]) None) ∧
  cache_find 3%N (cache world_bytes) = None ∧
  length (cache world_bytes) < cacheSize world_bytes ∧
  demo_parse [Byte.x01] = (Some (mkVertex 3%N [1%N; 2%N] 5%N [] [Byte.x01]), None) ∧
  ∃ w',
    Accept demo_parse 0 world_bytes = Ok (None, w') ∧
    statuses (pending w') !! 3%N = Some Accepted ∧
    edge w' = {[3%N]} ∪ {[1%N; 2%N]} ∧
    frontier (pending w') = {[3%N]} ∪ {[1%N; 2%N]} ∧
    committed w' = pending w' ∧
    1%N ∈ frontier (pending w') ∧ 2%N ∈ frontier (pending w') ∧
    edge w' ≠ {[3%N]}.
Proof.
  split; [reflexivity|]. split; [reflexivity|]. split; [simpl; lia|].
  split; [reflexivity|].
  destruct (Accept_from_bytes_keeps_parents demo_parse world_bytes 0 3%N [Byte.x01]
              (mkVertex 3%N [1%N; 2%N] 5%N [] [Byte.x01])
              eq_refl eq_refl ltac:(simpl; lia) eq_refl)
    as (w' & E & Hs & He & Hf & Hc & Hp).
  exists w'. split; [exact E|]. split; [exact Hs|]. split; [exact He|].
  split; [exact Hf|]. split; [exact (Hc eq_refl)|].
  split; [apply (Hp 1%N); [simpl; set_solver|simpl; set_solver]|].
  split; [apply (Hp 2%N); [simpl; set_solver|simpl; set_solver]|].
  rewrite He. simpl. intros Heq.
  assert (1%N ∈ ({[3%N]} : gset ID)) as Hin by (rewrite <- Heq; set_solver).
  set_solver.
Defined.



(** C6: the commit fails; the error is returned, yet the handle reads
    Accepted and the frontier in memory is {3}, while the durable store
    still has vertex 3 Processing and the frontier {1, 2}. *)
Lemma failed_commit_counterexample :
  let w := world_new Processing (Some "commit failed"%string) in
  eval (Accept demo_parse 0) w = Some (Some "commit failed"%string) ∧
  eval (Accept demo_parse 0 ;; Status_of demo_parse 0) w = Some Accepted ∧
  edge <$> exec (Accept demo_parse 0) w = Some {[3%N]} ∧
  (λ w', statuses (committed w') !! 3%N) <$> exec (Accept demo_parse 0) w
    = Some (Some Processing) ∧
  (frontier ∘ committed) <$> exec (Accept demo_parse 0) w = Some {[1%N; 2%N]}.
Proof. repeat split; vm_compute; reflexivity. Qed.

Lemma failed_commit_keeps_decision_witness :
  let err := "commit failed"%string in
  refresh demo_parse 0 (world_new Processing (Some err))
    = Ok (tt, world_V Processing (Some err)) ∧
  reconciled (world_V Processing (Some err)) 0 0 handle_V (state_V Processing) ∧
  vtx (state_V Processing) = Some body_V ∧
  cached_parents_ok (world_V Processing (Some err)) (state_V Processing) body_V ∧
  commitErr (world_V Processing (Some err)) = Some err ∧
  (∃ w1 c1,
     Accept demo_parse 0 (world_new Processing (Some err)) = Ok (Some err, w1) ∧
     committed w1 = store_V Processing ∧
     cells w1 !! 0 = Some c1 ∧ status c1 = Accepted ∧ parents c1 = [] ∧
     edge w1 = ({[3%N]} ∪ {[1%N; 2%N]}) ∖ list_to_set [1%N; 2%N] ∧
     frontier (pending w1) = edge w1 ∧
     statuses (pending w1) =
       statuses_after 3%N Processing Accepted (statuses (store_V Processing))) ∧
  (∃ w2 c2,
     Reject demo_parse 0 (world_new Processing (Some err)) = Ok (Some err, w2) ∧
     committed w2 = store_V Processing ∧
     cells w2 !! 0 = Some c2 ∧ status c2 = Rejected ∧ parents c2 = [] ∧
     edge w2 = {[1%N; 2%N]} ∧
     statuses (pending w2) =
       statuses_after 3%N Processing Rejected (statuses (store_V Processing))).
Proof.
  intros err.
  assert (H1 : refresh demo_parse 0 (world_new Processing (Some err))
               = Ok (tt, world_V Processing (Some err))) by (vm_compute; reflexivity).
  assert (H2 : reconciled (world_V Processing (Some err)) 0 0 handle_V (state_V Processing))
    by (repeat split; reflexivity).
  assert (H3 : cached_parents_ok (world_V Processing (Some err)) (state_V Processing) body_V)
    by (intros H; simpl in H; discriminate H).
  split; [exact H1|]. split; [exact H2|]. split; [reflexivity|]. split; [exact H3|].
  split; [reflexivity|].
  exact (failed_commit_keeps_decision demo_parse (world_new Processing (Some err))
           (world_V Processing (Some err)) 0 0 handle_V (state_V Processing) body_V err
           H1 H2 eq_refl H3 eq_refl).
Defined.




Lemma Evict_only_clears_unique_witness :
  handles (world_V Processing None) !! 0 = Some handle_V ∧
  (∀ a, v handle_V = Some a → is_Some (cells (world_V Processing None) !! a)) ∧
  ∃ w', Evict 0 (world_V Processing None) = Ok (tt, w') ∧
    handles w' = [handle_V] ∧ cache w' = [(3%N, 0)] ∧ cacheSize w' = 4 ∧
    edge w' = {[1%N; 2%N]} ∧ pending w' = store_V Processing ∧
    committed w' = store_V Processing ∧ commitErr w' = None ∧
    events w' = [EvStatus 3%N; EvVertex 3%N] ∧
    ∃ c, cells (world_V Processing None) !! 0 = Some c ∧
      cells w' = <[0 := mkState false (verified c) (validity c) (vtx c)
                           (status c) (parents c) (txs c)]> [state_V Processing].
Proof.
  assert (H2 : ∀ a, v handle_V = Some a → is_Some (cells (world_V Processing None) !! a)).
  { intros a Ha. injection Ha as <-. exists (state_V Processing). reflexivity. }
  split; [reflexivity|]. split; [exact H2|].
  exact (Evict_only_clears_unique (world_V Processing None) 0 handle_V eq_refl H2).
Defined.

(** C9: [Verify] and [Bytes] as the first call on a handle known by ID
    only. *)
Lemma Verify_Bytes_skip_refresh_witness :
  handles world_by_id !! 0 = Some (mkHandle 1%N None None) ∧
  Verify demo_verify 0 world_by_id = Panic ∧
  Bytes 0 world_by_id = Panic.
Proof.
  split; [reflexivity|].
  exact (Verify_Bytes_skip_refresh demo_verify world_by_id 0 (mkHandle 1%N None None)
           eq_refl).
Defined.

Lemma setStatus_writes_iff_changed_witness :
  refresh demo_parse 0 (world_new Processing None) = Ok (tt, world_V Processing None) ∧
  handles (world_V Processing None) !! 0 = Some handle_V ∧
  v handle_V = Some 0 ∧
  cells (world_V Processing None) !! 0 = Some (state_V Processing) ∧
  (∃ w', setStatus demo_parse 0 Processing (world_new Processing None) = Ok (tt, w') ∧
         w' = world_V Processing None) ∧
  (∃ w', setStatus demo_parse 0 Accepted (world_new Processing None) = Ok (tt, w') ∧
         events w' = events (world_V Processing None) ++ [EvSetStatus 3%N Accepted] ∧
         statuses (pending w') !! 3%N = Some Accepted).
Proof.
  assert (H1 : refresh demo_parse 0 (world_new Processing None)
               = Ok (tt, world_V Processing None)) by (vm_compute; reflexivity).
  split; [exact H1|]. split; [reflexivity|]. split; [reflexivity|].
  split; [reflexivity|]. split.
  - destruct (setStatus_writes_iff_changed demo_parse (world_new Processing None)
                (world_V Processing None) 0 handle_V 0 (state_V Processing) Processing
                H1 eq_refl eq_refl eq_refl) as (w' & E & Hsame & _).
    exists w'. split; [exact E|]. apply Hsame. reflexivity.
  - destruct (setStatus_writes_iff_changed demo_parse (world_new Processing None)
                (world_V Processing None) 0 handle_V 0 (state_V Processing) Accepted
                H1 eq_refl eq_refl eq_refl) as (w' & E & _ & Hdiff & _).
    destruct Hdiff as (Hev & Hst & _); [discriminate|].
    exists w'. split; [exact E|]. split; [exact Hev|].
    rewrite Hst. apply lookup_insert_eq.
Defined.

(** ** The router's metrics: registration and shutdown *)

Section RouterMetrics.

Import Router.

Context {R : Type} `{Registerer R}.
Variable registered : R → Collector → bool.
Context (Hlaws : RegistererLaws R registered).
Variable errs_Add : option error → error → option error.

Lemma initHistogram_unfold ns nm errs r :
  initHistogram errs_Add ns nm errs r =
  let '(err, r') := Register (mkCollector ns nm) r in
  (mkCollector ns nm,
   match err with
   | Some e =>
       errs_Add errs ("failed to register " +:+ nm +:+ " statistics due to " +:+ e)
   | None => errs
   end,
   r').
Proof. reflexivity. Qed.

Lemma initHistogram_collector ns nm errs r :
  (initHistogram errs_Add ns nm errs r).1.1 = mkCollector ns nm.
Proof. unfold initHistogram. by destruct (Register _ _). Qed.

Lemma Initialize_unfold ns r :
  Initialize errs_Add ns r =
  (metrics_of ns, (register_names errs_Add ns initialized_names None r).1,
   (register_names errs_Add ns initialized_names None r).2).
Proof.
  unfold Initialize, initialized_names. cbn [register_names].
  rewrite (initHistogram_unfold ns "pending").
  destruct (Register (mkCollector ns "pending") r) as [e1 r1].
  cbv beta iota fix zeta delta [String.append].
  rewrite (initHistogram_unfold ns "dropped").
  destruct (Register (mkCollector ns "dropped") r1) as [e2 r2].
  cbv beta iota fix zeta delta [String.append].
  repeat match goal with
  | |- context [initHistogram errs_Add ns ?nm ?e ?r0] =>
      let Hc := fresh "Hc" in
      pose proof (initHistogram_collector ns nm e r0) as Hc;
      destruct (initHistogram errs_Add ns nm e r0) as [[? ?] ?];
      simpl in Hc; subst; cbv beta iota
  end.
  reflexivity.
Qed.

Lemma Shutdown_unfold m r :
  Shutdown m r =
  if negb (registerer m) then (None, r)
  else
    let '(ok, r') :=
      unregister_chain
        [pending m; dropped m; getAcceptedFrontier m; acceptedFrontier m;
         getAccepted m; accepted m; getAcceptedFailed m; getAncestors m;
         multiPut m; getAncestorsFailed m; get m; put m; getFailed m;
         pushQuery m; pullQuery m; chits m; queryFailed m; notify m; gossip m;
         shutdown m] r in
    if ok then (None, r')
    else (Some "could not unregister all chain handler metrics"%string, r').
Proof.
  unfold Shutdown. destruct (negb (registerer m)); [done|].
  unfold and_then, unregister_chain.
  repeat (destruct (Unregister _ _) as [[|] ?]; cbv beta iota; try reflexivity).
Qed.
Lemma held_prefix_ext (f g : Collector → bool) l :
  (∀ c, c ∈ l → f c = g c) → held_prefix f l = held_prefix g l.
Proof.
  induction l as [|c l IH]; intros Hfg; [done|]. simpl.
  rewrite <- (Hfg c) by apply list_elem_of_here.
  destruct (f c); [|done]. f_equal. apply IH.
  intros c' Hc'. apply Hfg. by apply list_elem_of_further.
Qed.

Lemma held_prefix_all (f : Collector → bool) l :
  held_prefix f l = l ↔ ∀ c, c ∈ l → f c = true.
Proof.
  induction l as [|c l IH]; simpl.
  - split; [|done]. intros _ c Hc. by apply elem_of_nil in Hc.
  - destruct (f c) eqn:Hf.
    + split.
      * intros [= Hl] c' Hc'. apply elem_of_cons in Hc' as [->|Hc']; [done|].
        by apply IH.
      * intros Hall. f_equal. apply IH. intros c' Hc'. apply Hall.
        by apply list_elem_of_further.
    + split; [done|]. intros Hall.
      rewrite Hall in Hf by apply list_elem_of_here. done.
Qed.

(** Registering a list of names: afterwards the registry holds what it held
    and the collectors of the names. *)
Lemma register_names_registered ns l errs r c :
  registered (register_names errs_Add ns l errs r).2 c =
  bool_decide (c ∈ collectors ns l) || registered r c.
Proof using Type Hlaws.
  revert errs r. induction l as [|nm l IH]; intros errs r.
  - done.
  - cbn [register_names]. unfold initHistogram.
    destruct (registered r (mkCollector ns nm)) eqn:Hheld.
    + destruct (Register_held r _ Hheld) as [e ->]. rewrite IH.
      unfold collectors. rewrite fmap_cons.
      destruct (decide (c = mkCollector ns nm)) as [->|Hne].
      * rewrite Hheld, !orb_true_r. done.
      * f_equal. apply bool_decide_ext. rewrite elem_of_cons. naive_solver.
    + destruct (Register_new r _ Hheld) as (r' & -> & Hr'). rewrite IH, Hr'.
      unfold collectors. rewrite fmap_cons.
      rewrite orb_assoc. f_equal. rewrite <- bool_decide_or.
      apply bool_decide_ext. rewrite elem_of_cons. tauto.
Qed.

Lemma register_names_error_kept ns l errs r :
  (∀ x e, errs_Add x e ≠ None) → errs ≠ None →
  (register_names errs_Add ns l errs r).1 ≠ None.
Proof.
  intros Hadd. revert errs r. induction l as [|nm l IH]; intros errs r He; [done|].
  simpl. unfold initHistogram.
  destruct (Register (mkCollector ns nm) r) as [[e|] r']; apply IH; [apply Hadd|done].
Qed.

(** No error comes out of the registrations exactly when the registry held
    none of the collectors. *)
Lemma register_names_error ns l r :
  (∀ x e, errs_Add x e ≠ None) → NoDup l →
  (register_names errs_Add ns l None r).1 = None ↔
  ∀ c, c ∈ collectors ns l → registered r c = false.
Proof using Type Hlaws.
  intros Hadd. revert r. induction l as [|nm l IH]; intros r Hnd.
  - simpl. split; [|done]. intros _ c Hc. by apply elem_of_nil in Hc.
  - apply NoDup_cons in Hnd as [Hnm Hnd]. cbn [register_names].
    unfold initHistogram, collectors. rewrite fmap_cons. fold (collectors ns l).
    destruct (registered r (mkCollector ns nm)) eqn:Hheld.
    + destruct (Register_held r _ Hheld) as [e ->]. split.
      * intros Hn. exfalso. revert Hn. apply register_names_error_kept; [done|].
        apply Hadd.
      * intros Hall. rewrite Hall in Hheld by apply list_elem_of_here. done.
    + destruct (Register_new r _ Hheld) as (r' & -> & Hr'). rewrite (IH r' Hnd).
      split.
      * intros Hall c Hc. apply elem_of_cons in Hc as [->|Hc]; [done|].
        specialize (Hall c Hc). rewrite Hr' in Hall.
        by apply orb_false_iff in Hall as [_ ?].
      * intros Hall c Hc. rewrite Hr'. apply orb_false_iff. split.
        -- apply bool_decide_eq_false_2. intros ->.
           apply list_elem_of_fmap in Hc as (nm' & [= <-] & Hin). done.
        -- apply Hall. by apply list_elem_of_further.
Qed.

(** A chain of [Unregister] calls over distinct collectors removes the
    longest prefix the registry holds and succeeds when that is the whole
    list. *)
Lemma unregister_chain_spec l r :
  NoDup l →
  ∃ r', unregister_chain (Some <$> l) r
          = (bool_decide (held_prefix (registered r) l = l), r') ∧
        ∀ c, registered r' c =
             registered r c && negb (bool_decide (c ∈ held_prefix (registered r) l)).
Proof using Type Hlaws.
  revert r. induction l as [|c0 l IH]; intros r Hnd.
  - exists r. split; [done|]. intros c. simpl. by rewrite andb_true_r.
  - apply NoDup_cons in Hnd as [Hc0 Hnd]. rewrite fmap_cons.
    cbn [unregister_chain held_prefix].
    destruct (registered r c0) eqn:Hheld.
    + destruct (Unregister_held r c0 Hheld) as (r1 & -> & Hr1).
      destruct (IH r1 Hnd) as (r' & -> & Hr').
      assert (held_prefix (registered r1) l = held_prefix (registered r) l) as Hp.
      { apply held_prefix_ext. intros c Hc. rewrite Hr1.
        rewrite bool_decide_eq_false_2 by (intros ->; done). done. }
      exists r'. split.
      * f_equal. rewrite Hp. apply bool_decide_ext. split; [by intros ->|].
        by intros [= ?].
      * intros c. rewrite Hr', Hr1, Hp.
        destruct (decide (c = c0)) as [->|Hne].
        -- rewrite (bool_decide_eq_true_2 (c0 = c0)) by done. simpl.
           rewrite (bool_decide_eq_true_2 (c0 ∈ c0 :: _)) by apply list_elem_of_here.
           by rewrite andb_false_r.
        -- rewrite (bool_decide_eq_false_2 (c = c0)) by done. simpl.
           f_equal. f_equal. apply bool_decide_ext. rewrite elem_of_cons. naive_solver.
    + rewrite (Unregister_other r c0 Hheld). exists r. split.
      * by rewrite bool_decide_eq_false_2.
      * intros c. simpl. by rewrite andb_true_r.
Qed.


Lemma initialized_names_NoDup : NoDup initialized_names.
Proof. apply (bool_decide_unpack (NoDup initialized_names)). by vm_compute. Qed.

Lemma shutdown_names_NoDup : NoDup shutdown_names.
Proof. apply (bool_decide_unpack (NoDup shutdown_names)). by vm_compute. Qed.

Lemma collectors_NoDup ns l : NoDup l → NoDup (collectors ns l).
Proof. intros Hl. apply NoDup_fmap_2; [|done]. by intros ? ? [= ?]. Qed.

Lemma elem_of_collectors ns l c :
  c ∈ collectors ns l ↔ namespace c = ns ∧ name c ∈ l.
Proof.
  unfold collectors. rewrite list_elem_of_fmap. split.
  - by intros (nm & -> & Hnm).
  - intros [<- Hnm]. exists (name c). by destruct c.
Qed.

(** [Shutdown] leaves out one of the names [Initialize] registers. *)
Lemma initialized_names_split nm :
  nm ∈ initialized_names ↔
  nm = "get_accepted_frontier_failed"%string ∨ nm ∈ shutdown_names.
Proof.
  unfold initialized_names, shutdown_names.
  rewrite !elem_of_cons, !elem_of_nil. tauto.
Qed.

Lemma shutdown_names_lack : "get_accepted_frontier_failed"%string ∉ shutdown_names.
Proof.
  apply (bool_decide_unpack ("get_accepted_frontier_failed"%string ∉ shutdown_names)).
  by vm_compute.
Qed.

Lemma Shutdown_metrics_of ns r :
  Shutdown (metrics_of ns) r =
  let '(ok, r') := unregister_chain (Some <$> collectors ns shutdown_names) r in
  if ok then (None, r')
  else (Some "could not unregister all chain handler metrics"%string, r').
Proof. by rewrite Shutdown_unfold. Qed.

(** X13.  [Initialize] attempts all of its twenty-one registrations,
    whatever the registry answers.  Afterwards the struct names the
    twenty-one collectors of the namespace and the registry holds them
    beside what it held; the result is nil exactly when the registry held
    none of them before. *)
Theorem Initialize_registers_all ns r :
  (∀ x e, errs_Add x e ≠ None) →
  ∃ err r', Initialize errs_Add ns r = (metrics_of ns, err, r') ∧
    (∀ c, registered r' c =
          bool_decide (c ∈ collectors ns initialized_names) || registered r c) ∧
    (err = None ↔ ∀ c, c ∈ collectors ns initialized_names → registered r c = false).
Proof using Type Hlaws.
  intros Hadd. rewrite Initialize_unfold. do 2 eexists. split; [done|]. split.
  - intros c. apply register_names_registered.
  - apply register_names_error; [done|apply initialized_names_NoDup].
Qed.

(** X14.  [Shutdown] unregisters its twenty collectors in order and stops
    at the first one the registry does not hold: what it removes is the
    longest prefix of its list that the registry holds, and it returns nil
    exactly when the registry held all twenty.  With no registerer set it
    returns nil and leaves the registry alone. *)
Theorem Shutdown_unregisters_held_prefix ns r :
  (∃ err r', Shutdown (metrics_of ns) r = (err, r') ∧
     (∀ c, registered r' c =
           registered r c &&
           negb (bool_decide
                   (c ∈ held_prefix (registered r) (collectors ns shutdown_names)))) ∧
     (err = None ↔ ∀ c, c ∈ collectors ns shutdown_names → registered r c = true)) ∧
  (∀ m, registerer m = false → Shutdown m r = (None, r)).
Proof using Type Hlaws.
  split.
  - rewrite Shutdown_metrics_of.
    destruct (unregister_chain_spec (collectors ns shutdown_names) r)
      as (r' & -> & Hr').
    { apply collectors_NoDup, shutdown_names_NoDup. }
    case_bool_decide as Hp.
    + exists None, r'. split; [done|]. split; [done|].
      split; [|done]. intros _. by apply held_prefix_all.
    + eexists _, r'. split; [done|]. split; [done|].
      split; [done|]. intros Hall. by apply held_prefix_all in Hall.
  - intros m Hm. unfold Shutdown. by rewrite Hm.
Qed.

(** X15.  [Shutdown] does not undo [Initialize].  On a registry that holds
    none of the namespace's collectors, [Initialize] and then [Shutdown]
    both return nil, yet the registry is left holding the collector
    [get_accepted_frontier_failed], which [Shutdown] never unregisters.
    After that, [Initialize] of the same namespace returns an error and a
    second [Shutdown] returns its error and removes nothing. *)
Theorem Shutdown_leaves_one_registered ns r :
  (∀ x e, errs_Add x e ≠ None) →
  (∀ c, c ∈ collectors ns initialized_names → registered r c = false) →
  ∃ r1 r2,
    Initialize errs_Add ns r = (metrics_of ns, None, r1) ∧
    Shutdown (metrics_of ns) r1 = (None, r2) ∧
    (∀ c, registered r2 c =
          bool_decide (c = mkCollector ns "get_accepted_frontier_failed")
          || registered r c) ∧
    (∃ e r3, Initialize errs_Add ns r2 = (metrics_of ns, Some e, r3)) ∧
    Shutdown (metrics_of ns) r2 =
      (Some "could not unregister all chain handler metrics"%string, r2).
Proof using Type Hlaws.
  intros Hadd Hfresh.
  pose proof (Initialize_unfold ns r) as EI.
  pose proof (proj2 (register_names_error ns initialized_names r Hadd
                       initialized_names_NoDup) Hfresh) as Herr.
  pose proof (register_names_registered ns initialized_names None r) as Hr1.
  destruct (register_names errs_Add ns initialized_names None r) as [err r1].
  cbn [fst snd] in EI, Herr, Hr1. subst err.
  pose proof (Shutdown_metrics_of ns r1) as ES.
  destruct (unregister_chain_spec (collectors ns shutdown_names) r1)
    as (r2 & E2 & Hr2).
  { apply collectors_NoDup, shutdown_names_NoDup. }
  assert (held_prefix (registered r1) (collectors ns shutdown_names)
          = collectors ns shutdown_names) as Hp.
  { apply held_prefix_all. intros c Hc. rewrite Hr1.
    rewrite bool_decide_eq_true_2; [done|].
    apply elem_of_collectors in Hc as [Hns Hnm]. apply elem_of_collectors.
    split; [done|]. apply initialized_names_split. by right. }
  rewrite Hp in E2, Hr2. rewrite bool_decide_eq_true_2 in E2 by done.
  rewrite E2 in ES.
  assert (∀ c, registered r2 c =
               bool_decide (c = mkCollector ns "get_accepted_frontier_failed")
               || registered r c) as Hleft.
  { intros c. rewrite Hr2, Hr1.
    destruct (decide (c ∈ collectors ns shutdown_names)) as [Hc|Hc].
    - rewrite (bool_decide_eq_true_2 (c ∈ collectors ns shutdown_names)) by done.
      rewrite andb_false_r. symmetry. apply orb_false_iff. split.
      + apply bool_decide_eq_false_2. intros ->.
        apply elem_of_collectors in Hc as [_ Hc]. by apply shutdown_names_lack in Hc.
      + apply Hfresh. apply elem_of_collectors in Hc as [Hns Hnm].
        apply elem_of_collectors. split; [done|]. apply initialized_names_split.
        by right.
    - rewrite (bool_decide_eq_false_2 (c ∈ collectors ns shutdown_names)) by done.
      rewrite andb_true_r. f_equal. apply bool_decide_ext.
      rewrite elem_of_collectors, initialized_names_split. split.
      + intros [Hns [Hnm|Hnm]].
        * destruct c. simpl in *. by subst.
        * exfalso. apply Hc. by apply elem_of_collectors.
      + intros ->. split; [done|]. by left. }
  exists r1, r2. split; [exact EI|]. split; [exact ES|]. split; [exact Hleft|].
  split.
  - pose proof (Initialize_unfold ns r2) as EI2.
    destruct (register_names errs_Add ns initialized_names None r2) as [[e|] r3] eqn:Ee.
    + by exists e, r3.
    + exfalso.
      pose proof (proj1 (register_names_error ns initialized_names r2 Hadd
                           initialized_names_NoDup)) as Hnone.
      rewrite Ee in Hnone.
      specialize (Hnone eq_refl (mkCollector ns "get_accepted_frontier_failed")).
      rewrite Hleft, bool_decide_eq_true_2 in Hnone by done.
      discriminate Hnone. apply elem_of_collectors. split; [done|].
      apply initialized_names_split. by left.
  - rewrite Shutdown_metrics_of. unfold shutdown_names, collectors.
    rewrite !fmap_cons. cbn [unregister_chain].
    rewrite (Unregister_other r2 (mkCollector ns "pending")); [done|].
    rewrite Hleft. apply orb_false_iff. split.
    + by apply bool_decide_eq_false_2.
    + apply Hfresh. apply elem_of_collectors. split; [done|].
      apply (bool_decide_unpack ("pending"%string ∈ initialized_names)).
      by vm_compute.
Qed.

End RouterMetrics.

(** ** The wallet's balance *)

Section AvmWallet.

Import Avm.

Context {K U O T : Type} `{Output O} `{Keychain K O} `{UTXOSet U O}.

Implicit Types (w : Wallet K U T) (u : UTXO O).

Lemma wrap64_range z : (0 ≤ wrap64 z < 2 ^ 64)%Z.
Proof. unfold wrap64. apply Z.mod_pos_bound. lia. Qed.

Lemma wrap64_small z : (0 ≤ z < 2 ^ 64)%Z → wrap64 z = z.
Proof. intros Hz. unfold wrap64. by apply Z.mod_small. Qed.

Lemma wrap64_add_sub z a : wrap64 (wrap64 (z + a) - a) = wrap64 z.
Proof.
  unfold wrap64. rewrite Zminus_mod_idemp_l. f_equal. lia.
Qed.

Lemma wrap64_add_add z a : wrap64 (wrap64 (z + a) + a) = wrap64 (z + 2 * a).
Proof.
  unfold wrap64. rewrite Zplus_mod_idemp_l. f_equal. lia.
Qed.

Lemma wrap64_add_add_sub z a : wrap64 (wrap64 (z + 2 * a) - a) = wrap64 (z + a).
Proof.
  unfold wrap64. rewrite Zminus_mod_idemp_l. f_equal. lia.
Qed.

Lemma balance_at_insert (m : gmap ID Z) k z : balance_at (<[k := z]> m) k = z.
Proof. unfold balance_at. by rewrite lookup_insert_eq. Qed.

Lemma balance_at_insert_ne (m : gmap ID Z) k k' z :
  k' ≠ k → balance_at (<[k := z]> m) k' = balance_at m k'.
Proof. intros Hk. unfold balance_at. by rewrite lookup_insert_ne. Qed.

Lemma balance_at_delete (m : gmap ID Z) k : balance_at (delete k m) k = 0%Z.
Proof. unfold balance_at. by rewrite lookup_delete_eq. Qed.

Lemma balance_at_delete_ne (m : gmap ID Z) k k' :
  k' ≠ k → balance_at (delete k m) k' = balance_at m k'.
Proof. intros Hk. unfold balance_at. by rewrite lookup_delete_ne. Qed.

Lemma balance_at_range w k : balances_in_range w → (0 ≤ Balance k w < 2 ^ 64)%Z.
Proof.
  intros Hr. unfold Balance, balance_at.
  destruct (balance w !! k) as [z|] eqn:E; simpl; [by eapply Hr|lia].
Qed.

(** What [RemoveUTXO] leaves in the map for a new balance. *)
Lemma debit_balance_at (m : gmap ID Z) k z k' :
  balance_at (if decide (wrap64 z = 0%Z) then delete k m else <[k := wrap64 z]> m) k'
  = if decide (k' = k) then wrap64 z else balance_at m k'.
Proof.
  destruct (decide (k' = k)) as [->|Hk]; destruct (decide (wrap64 z = 0%Z)) as [E|E].
  - by rewrite balance_at_delete.
  - by rewrite balance_at_insert.
  - by rewrite balance_at_delete_ne.
  - by rewrite balance_at_insert_ne.
Qed.

(** X16.  [AddUTXO] of a transferable output that the keychain can spend
    puts the UTXO into the set and credits its amount to the balance of
    its asset, wrapping around at 2^64 without an error; the balances of
    the other assets, the keychain and the transactions stay. *)
Theorem AddUTXO_credits_balance w u amount :
  Amount (Out u) = Some amount →
  Spend (keychain w) (Out u) MaxUint64 = None →
  ∃ w', AddUTXO (Some u) w = Ok w' ∧
    Balance (AssetID u) w' = wrap64 (Balance (AssetID u) w + amount) ∧
    (∀ k, k ≠ AssetID u → Balance k w' = Balance k w) ∧
    utxoSet w' = Put u (utxoSet w) ∧
    keychain w' = keychain w ∧ txs w' = txs w ∧
    (balances_in_range w → balances_in_range w').
Proof.
  intros Ha Hs. unfold AddUTXO. rewrite Ha, Hs. eexists. split; [reflexivity|].
  unfold Balance. simpl. split; [apply balance_at_insert|].
  split; [intros k Hk; by apply balance_at_insert_ne|].
  do 3 (split; [reflexivity|]).
  intros Hr k z. simpl. destruct (decide (k = AssetID u)) as [->|Hk].
  - rewrite lookup_insert_eq. intros [= <-]. apply wrap64_range.
  - rewrite lookup_insert_ne by done. apply Hr.
Qed.

(** X17.  [RemoveUTXO] of an ID the set does not hold does nothing.  For a
    UTXO the set holds it panics when the output is not a transferable
    one; otherwise it takes the UTXO out of the set and debits its amount
    from the balance of its asset, wrapping around below zero without an
    error, never leaves a zero entry for that asset in the map, and leaves
    the other entries as they are. *)
Theorem RemoveUTXO_debits_balance w i :
  match Get i (utxoSet w) with
  | None => RemoveUTXO i w = Ok w
  | Some u =>
      match Amount (Out u) with
      | None => RemoveUTXO i w = Panic
      | Some amount =>
          ∃ w', RemoveUTXO i w = Ok w' ∧
            Balance (AssetID u) w' = wrap64 (Balance (AssetID u) w - amount) ∧
            balance w' !! AssetID u ≠ Some 0%Z ∧
            (∀ k, k ≠ AssetID u → balance w' !! k = balance w !! k) ∧
            utxoSet w' = Remove i (utxoSet w) ∧
            keychain w' = keychain w ∧ txs w' = txs w ∧
            (balances_in_range w → balances_in_range w')
      end
  end.
Proof.
  unfold RemoveUTXO. destruct (Get i (utxoSet w)) as [u|]; [|reflexivity].
  destruct (Amount (Out u)) as [amount|]; [|reflexivity].
  eexists. split; [reflexivity|]. unfold Balance. simpl.
  split; [by rewrite debit_balance_at, decide_True|].
  split.
  { case_decide as E; [by rewrite lookup_delete_eq|].
    rewrite lookup_insert_eq. by intros [= E']. }
  split.
  { intros k Hk. case_decide; [by rewrite lookup_delete_ne|by rewrite lookup_insert_ne]. }
  do 3 (split; [reflexivity|]).
  intros Hr k z. simpl. case_decide as E.
  - intros Hz%lookup_delete_Some. apply (Hr k z), Hz.
  - destruct (decide (k = AssetID u)) as [->|Hk].
    + rewrite lookup_insert_eq. intros [= <-]. apply wrap64_range.
    + rewrite lookup_insert_ne by done. apply Hr.
Qed.

(** X18.  [AddUTXO] and then [RemoveUTXO] of the same UTXO, when the set
    answers the UTXO for its ID after the [Put]: every balance is what it
    was, and so is the map unless it held a zero entry for the asset. *)
Theorem AddUTXO_RemoveUTXO_round_trip w u amount :
  balances_in_range w →
  Amount (Out u) = Some amount →
  Spend (keychain w) (Out u) MaxUint64 = None →
  Get (InputID u) (Put u (utxoSet w)) = Some u →
  ∃ w1 w2, AddUTXO (Some u) w = Ok w1 ∧ RemoveUTXO (InputID u) w1 = Ok w2 ∧
    (∀ k, Balance k w2 = Balance k w) ∧
    (balance w !! AssetID u ≠ Some 0%Z → balance w2 = balance w) ∧
    utxoSet w2 = Remove (InputID u) (Put u (utxoSet w)) ∧
    keychain w2 = keychain w ∧ txs w2 = txs w.
Proof.
  intros Hr Ha Hs Hg. unfold AddUTXO. rewrite Ha, Hs.
  eexists. eexists. split; [reflexivity|].
  unfold RemoveUTXO. simpl. rewrite Hg, Ha. split; [reflexivity|].
  unfold Balance. simpl. rewrite balance_at_insert, wrap64_add_sub.
  pose proof (balance_at_range w (AssetID u) Hr) as Hb. unfold Balance in Hb.
  rewrite (wrap64_small _ Hb).
  split.
  { intros k. case_decide as E.
    - rewrite delete_insert_eq. destruct (decide (k = AssetID u)) as [->|Hk].
      + by rewrite balance_at_delete.
      + by rewrite balance_at_delete_ne.
    - rewrite insert_insert_eq. destruct (decide (k = AssetID u)) as [->|Hk].
      + by rewrite balance_at_insert.
      + by rewrite balance_at_insert_ne. }
  split; [|done].
  intros Hz. unfold balance_at in *. case_decide as E.
  - rewrite delete_insert_eq. apply delete_id.
    destruct (balance w !! AssetID u) as [z|]; [|done]. simpl in E. by subst.
  - rewrite insert_insert_eq. apply insert_id.
    destruct (balance w !! AssetID u) as [z|]; [done|]. by simpl in E.
Qed.

(** X19.  [AddUTXO] does not look whether the wallet holds the UTXO
    already: adding a UTXO twice credits its amount twice.  When the set
    holds it once however often it is put, one [RemoveUTXO] takes it out
    and debits once, a second one does nothing, and the balance keeps the
    amount of a UTXO the wallet no longer holds. *)
Theorem AddUTXO_twice_credits_twice w u amount :
  Amount (Out u) = Some amount →
  Spend (keychain w) (Out u) MaxUint64 = None →
  Put u (Put u (utxoSet w)) = Put u (utxoSet w) →
  Get (InputID u) (Put u (utxoSet w)) = Some u →
  Get (InputID u) (Remove (InputID u) (Put u (utxoSet w))) = None →
  ∃ w1 w2 w3,
    AddUTXO (Some u) w = Ok w1 ∧ AddUTXO (Some u) w1 = Ok w2 ∧
    Balance (AssetID u) w2 = wrap64 (Balance (AssetID u) w + 2 * amount) ∧
    utxoSet w2 = utxoSet w1 ∧
    RemoveUTXO (InputID u) w2 = Ok w3 ∧
    Balance (AssetID u) w3 = wrap64 (Balance (AssetID u) w + amount) ∧
    RemoveUTXO (InputID u) w3 = Ok w3.
Proof.
  intros Ha Hs Hp Hg Hn. unfold AddUTXO. rewrite Ha, Hs.
  eexists. eexists. eexists. split; [reflexivity|]. simpl. rewrite Hs.
  split; [reflexivity|]. unfold Balance. simpl.
  rewrite !balance_at_insert, wrap64_add_add. split; [reflexivity|].
  split; [exact Hp|].
  unfold RemoveUTXO. simpl. rewrite Hp, Hg, Ha. split; [reflexivity|].
  simpl. rewrite Hn. split; [|reflexivity].
  rewrite balance_at_insert, wrap64_add_add_sub.
  by rewrite debit_balance_at, decide_True.
Qed.

(** X20.  [NextTx] hands out the wallet's transactions in order, each
    once: [n] calls answer the first [n] transactions and leave the rest,
    and once the list is used up the answer is an error and the wallet
    stays as it is. *)
Theorem NextTxs_in_order w n :
  NextTxs n w =
  (take n (txs w),
   if decide (n ≤ length (txs w)) then None
   else Some "no more transactions remaining"%string,
   mkWallet (networkID w) (chainID w) (avaxAssetID w) (keychain w) (utxoSet w)
     (balance w) (txFee w) (drop n (txs w))).
Proof.
  revert w. induction n as [|n IH]; intros w.
  - destruct w. reflexivity.
  - cbn [NextTxs]. unfold NextTx. destruct w as [a b c d e f g [|tx l]]; simpl.
    + reflexivity.
    + rewrite IH. simpl. repeat f_equal.
      destruct (decide (n ≤ length l)), (decide (S n ≤ S (length l))); (done || lia).
Qed.

End AvmWallet.

(** ** The further properties on the small DAG and on a list registry *)

Lemma refresh_world_unknown :
  refresh demo_parse 0 world_unknown = Ok (tt, world_unknown_refreshed).
Proof. vm_compute. reflexivity. Qed.

Lemma reconciled_world_V s err : reconciled (world_V s err) 0 0 handle_V (state_V s).
Proof. repeat split; reflexivity. Qed.

Lemma cached_parents_ok_world_V s err :
  cached_parents_ok (world_V s err) (state_V s) body_V.
Proof. intros H. simpl in H. discriminate H. Qed.

Lemma refresh_idempotent_witness :
  refresh demo_parse 0 (world_new Processing None) = Ok (tt, world_V Processing None) ∧
  (∃ a x c, reconciled (world_V Processing None) 0 a x c) ∧
  refresh demo_parse 0 (world_V Processing None) = Ok (tt, world_V Processing None).
Proof.
  assert (H1 : refresh demo_parse 0 (world_new Processing None)
               = Ok (tt, world_V Processing None)) by (vm_compute; reflexivity).
  split; [exact H1|].
  apply (refresh_idempotent demo_parse (world_new Processing None) 0
           (world_V Processing None)); [|exact H1].
  intros x g _ Hg. simpl in Hg. discriminate Hg.
Defined.

Lemma refresh_keeps_bytes_witness :
  handles world_bytes !! 0 = Some handle_V' ∧
  refresh demo_parse 0 world_bytes = Ok (tt, world_bytes_refreshed) ∧
  (∃ x0, handles world_bytes_refreshed !! 0 = Some x0 ∧ bytes x0 = bytes handle_V') ∧
  length (handles world_bytes_refreshed) = length (handles world_bytes) ∧
  (∀ g, g ≠ 0 → handles world_bytes_refreshed !! g = handles world_bytes !! g).
Proof.
  assert (H1 : refresh demo_parse 0 world_bytes = Ok (tt, world_bytes_refreshed))
    by (vm_compute; reflexivity).
  split; [reflexivity|]. split; [exact H1|].
  exact (refresh_keeps_bytes demo_parse world_bytes 0 handle_V' world_bytes_refreshed
           eq_refl H1).
Defined.

Lemma refresh_adopts_cached_state_witness :
  ∃ w', refresh demo_parse 1 (world_two Processing) = Ok (tt, w') ∧
    handles w' !! 1 = Some (mkHandle 3%N (Some [Byte.x01]) (Some 0)) ∧
    handles w' !! 0 = Some handle_V ∧
    cells w' !! 0 = Some (state_V Processing) ∧
    cache_find 3%N (cache w') = Some 0 ∧
    edge w' = {[1%N; 2%N]} ∧ pending w' = store_V Processing ∧
    committed w' = store_V Processing ∧
    events w' = [EvStatus 3%N; EvVertex 3%N].
Proof.
  apply (refresh_adopts_cached_state demo_parse (world_two Processing) 1 handle_V'
           0 handle_V 0 (state_V Processing) body_V);
    [reflexivity | reflexivity | reflexivity | lia | reflexivity | reflexivity
    | reflexivity | reflexivity].
Defined.



Lemma Verify_caches_result_witness :
  verified (state_V Processing) = false ∧
  ∃ w1, Verify demo_verify 0 (world_V Processing None) = Ok (demo_verify body_V, w1) ∧
    w1 = set_cells
           (λ cs, <[0 := with_verified true
                           (with_validity (demo_verify body_V) (state_V Processing))]> cs)
           (world_V Processing None) ∧
    Verify demo_verify 0 w1 = Ok (demo_verify body_V, w1).
Proof.
  split; [reflexivity|].
  apply (Verify_caches_result demo_verify (world_V Processing None) 0 handle_V 0
           (state_V Processing) body_V); reflexivity.
Defined.

Lemma Parents_cached_witness :
  refresh demo_parse 0 (world_new Processing None) = Ok (tt, world_V Processing None) ∧
  ∃ ps w1, Parents demo_parse 0 (world_new Processing None) = Ok (ps, w1) ∧
    parent_ids w1 ps = [Some 1%N; Some 2%N] ∧
    Parents demo_parse 0 w1 = Ok (ps, w1).
Proof.
  assert (H1 : refresh demo_parse 0 (world_new Processing None)
               = Ok (tt, world_V Processing None)) by (vm_compute; reflexivity).
  split; [exact H1|].
  exact (Parents_cached demo_parse (world_new Processing None) (world_V Processing None)
           0 0 handle_V (state_V Processing) body_V H1
           (reconciled_world_V Processing None) eq_refl
           (cached_parents_ok_world_V Processing None)).
Defined.

Lemma Txs_cached_witness :
  refresh demo_parse 0 world_T = Ok (tt, world_T_refreshed) ∧
  vtx_txs body_T = [10%N; 11%N] ∧
  ∃ w1, Txs demo_parse 0 world_T = Ok ([10%N; 11%N], w1) ∧
    Txs demo_parse 0 w1 = Ok ([10%N; 11%N], w1).
Proof.
  assert (H1 : refresh demo_parse 0 world_T = Ok (tt, world_T_refreshed))
    by (vm_compute; reflexivity).
  assert (H2 : reconciled world_T_refreshed 0 0 handle_T state_T)
    by (repeat split; reflexivity).
  split; [exact H1|]. split; [reflexivity|].
  destruct (Txs_cached demo_parse world_T world_T_refreshed 0 0 handle_T state_T body_T
              H1 H2 eq_refl)
    as (ts & w1 & E & _ & Heq & E2).
  exists w1. rewrite (Heq eq_refl) in E, E2. split; [exact E|exact E2].
Defined.

Lemma accessors_need_a_body_witness :
  refresh demo_parse 0 world_unknown = Ok (tt, world_unknown_refreshed) ∧
  reconciled world_unknown_refreshed 0 0 handle_N state_N ∧
  vtx state_N = None ∧
  Status_of demo_parse 0 world_unknown = Ok (Unknown, world_unknown_refreshed) ∧
  Height demo_parse 0 world_unknown = Panic ∧
  Parents demo_parse 0 world_unknown = Panic ∧
  Txs demo_parse 0 world_unknown = Panic ∧
  Accept demo_parse 0 world_unknown = Panic ∧
  Reject demo_parse 0 world_unknown =
    Ok (None, rejected_world handle_N 0 state_N world_unknown_refreshed).
Proof.
  assert (H2 : reconciled world_unknown_refreshed 0 0 handle_N state_N)
    by (repeat split; reflexivity).
  split; [exact refresh_world_unknown|]. split; [exact H2|]. split; [reflexivity|].
  exact (accessors_need_a_body demo_parse world_unknown world_unknown_refreshed
           0 0 handle_N state_N refresh_world_unknown H2 eq_refl).
Defined.

Lemma setVertex_sets_body_once_witness :
  refresh demo_parse 0 world_unknown = Ok (tt, world_unknown_refreshed) ∧
  reconciled world_unknown_refreshed 0 0 handle_N state_N ∧
  ∃ w', setVertex demo_parse 0 (Some body_N) world_unknown = Ok (tt, w') ∧
    cells w' = [mkState true false None (Some body_N) Processing [] []] ∧
    vertices (pending w') = <[9%N := body_N]> (vertices (store_V Unknown)) ∧
    statuses (pending w') = <[9%N := Processing]> (statuses (store_V Unknown)) ∧
    frontier (pending w') = {[1%N; 2%N]} ∧
    handles w' = [handle_N] ∧ cache w' = [(9%N, 0)] ∧ edge w' = {[1%N; 2%N]} ∧
    committed w' = store_V Unknown ∧
    events w' = [EvStatus 9%N; EvVertex 9%N; EvSetVertex body_N;
                 EvSetStatus 9%N Processing].
Proof.
  assert (H2 : reconciled world_unknown_refreshed 0 0 handle_N state_N)
    by (repeat split; reflexivity).
  split; [exact refresh_world_unknown|]. split; [exact H2|].
  exact (setVertex_sets_body_once demo_parse world_unknown world_unknown_refreshed
           0 0 handle_N state_N body_N refresh_world_unknown H2).
Defined.

Lemma storeAndUpdateStatus_syncs_status_witness :
  ∃ w', storeAndUpdateStatus 0 (world_V Unknown None) = Ok (tt, w') ∧
    cells w' = [state_V Processing] ∧
    Processing ≠ Unknown ∧
    default Unknown (statuses (pending w') !! 3%N) = Processing ∧
    vertices (pending w') = <[3%N := body_V]> (vertices (store_V Unknown)) ∧
    (default Unknown (statuses (store_V Unknown) !! 3%N) ≠ Unknown →
     statuses (pending w') = statuses (store_V Unknown)) ∧
    handles w' = [handle_V] ∧ edge w' = {[1%N; 2%N]} ∧
    frontier (pending w') = {[1%N; 2%N]} ∧ committed w' = store_V Unknown.
Proof.
  exact (storeAndUpdateStatus_syncs_status (world_V Unknown None) 0 handle_V 0
           (state_V Unknown) body_V eq_refl eq_refl eq_refl eq_refl).
Defined.

Lemma Reject_writes_status_only_witness :
  refresh demo_parse 0 (world_new Processing None) = Ok (tt, world_V Processing None) ∧
  ∃ w', Reject demo_parse 0 (world_new Processing None) = Ok (None, w') ∧
    cells w' = [state_V Rejected] ∧
    handles w' = [handle_V] ∧ cache w' = [(3%N, 0)] ∧
    edge w' = {[1%N; 2%N]} ∧ frontier (pending w') = {[1%N; 2%N]} ∧
    vertices (pending w') = vertices (store_V Processing) ∧
    (∀ j, j ≠ 3%N → statuses (pending w') !! j = statuses (store_V Processing) !! j) ∧
    (commitErr (world_V Processing None) = None → committed w' = pending w') ∧
    events w' = [EvStatus 3%N; EvVertex 3%N; EvSetStatus 3%N Rejected; EvCommit].
Proof.
  assert (H1 : refresh demo_parse 0 (world_new Processing None)
               = Ok (tt, world_V Processing None)) by (vm_compute; reflexivity).
  split; [exact H1|].
  exact (Reject_writes_status_only demo_parse (world_new Processing None)
           (world_V Processing None) 0 0 handle_V (state_V Processing) H1
           (reconciled_world_V Processing None)).
Defined.

Lemma decision_shared_between_handles_witness :
  (∃ w', (refresh demo_parse 1 ;; Accept demo_parse 0 ;; Status_of demo_parse 1)
           (world_two Processing) = Ok (Accepted, w')) ∧
  (∃ w', (Accept demo_parse 1 ;; Status_of demo_parse 0) (world_two Processing)
         = Ok (Accepted, w')) ∧
  (∃ w', (Reject demo_parse 1 ;; Status_of demo_parse 0) (world_two Processing)
         = Ok (Rejected, w')).
Proof.
  apply (decision_shared_between_handles demo_parse (world_two Processing) 1 handle_V'
           0 handle_V 0 (state_V Processing) body_V);
    [reflexivity | reflexivity | reflexivity | reflexivity | lia
    | repeat split; reflexivity | reflexivity
    | intros H; simpl in H; discriminate H].
Defined.

(** The list registry does what a registry is expected to do. *)
Lemma list_registerer_laws :
  Router.RegistererLaws (list Router.Collector) Router.list_registered.
Proof.
  split; unfold Router.list_registered; simpl.
  - intros r c Hc%bool_decide_eq_false. rewrite decide_False by done.
    eexists. split; [done|]. intros c'. rewrite <- bool_decide_or.
    apply bool_decide_ext. by rewrite elem_of_cons.
  - intros r c Hc%bool_decide_eq_true. rewrite decide_True by done. eauto.
  - intros r c Hc%bool_decide_eq_true. rewrite decide_True by done.
    eexists. split; [done|]. intros c'.
    rewrite <- bool_decide_not, <- bool_decide_and.
    apply bool_decide_ext. rewrite list_elem_of_filter. tauto.
  - intros r c Hc%bool_decide_eq_false. by rewrite decide_False.
Qed.

Lemma first_error_adds x e : Router.first_error x e ≠ None.
Proof. by destruct x. Qed.

Lemma Initialize_registers_all_witness :
  ∃ err r',
    Router.Initialize Router.first_error "chain" [] = (Router.metrics_of "chain", err, r') ∧
    (∀ c, Router.list_registered r' c =
          bool_decide (c ∈ Router.collectors "chain" Router.initialized_names)
          || Router.list_registered [] c) ∧
    (err = None ↔
     ∀ c, c ∈ Router.collectors "chain" Router.initialized_names →
          Router.list_registered [] c = false).
Proof.
  exact (Initialize_registers_all Router.list_registered list_registerer_laws
           Router.first_error "chain" [] first_error_adds).
Defined.

Lemma Shutdown_unregisters_held_prefix_witness :
  (∃ err r',
     Router.Shutdown (Router.metrics_of "chain")
       (Router.collectors "chain" ["pending"; "dropped"; "get"]) = (err, r') ∧
     (∀ c, Router.list_registered r' c =
           Router.list_registered (Router.collectors "chain" ["pending"; "dropped"; "get"]) c &&
           negb (bool_decide
                   (c ∈ Router.held_prefix
                          (Router.list_registered
                             (Router.collectors "chain" ["pending"; "dropped"; "get"]))
                          (Router.collectors "chain" Router.shutdown_names)))) ∧
     (err = None ↔
      ∀ c, c ∈ Router.collectors "chain" Router.shutdown_names →
           Router.list_registered
             (Router.collectors "chain" ["pending"; "dropped"; "get"]) c = true)) ∧
  (∀ m, Router.registerer m = false →
        Router.Shutdown m (Router.collectors "chain" ["pending"; "dropped"; "get"])
        = (None, Router.collectors "chain" ["pending"; "dropped"; "get"])).
Proof.
  exact (Shutdown_unregisters_held_prefix Router.list_registered list_registerer_laws
           "chain" (Router.collectors "chain" ["pending"; "dropped"; "get"])).
Defined.

Lemma Shutdown_leaves_one_registered_witness :
  ∃ r1 r2,
    Router.Initialize Router.first_error "chain" [] = (Router.metrics_of "chain", None, r1) ∧
    Router.Shutdown (Router.metrics_of "chain") r1 = (None, r2) ∧
    (∀ c, Router.list_registered r2 c =
          bool_decide (c = Router.mkCollector "chain" "get_accepted_frontier_failed")
          || Router.list_registered [] c) ∧
    (∃ e r3, Router.Initialize Router.first_error "chain" r2
             = (Router.metrics_of "chain", Some e, r3)) ∧
    Router.Shutdown (Router.metrics_of "chain") r2 =
      (Some "could not unregister all chain handler metrics"%string, r2).
Proof.
  apply (Shutdown_leaves_one_registered Router.list_registered list_registerer_laws
           Router.first_error "chain" []); [exact first_error_adds|].
  intros c _. reflexivity.
Defined.

(** On the list registry: [Initialize], [Shutdown], and what is left. *)
Example Shutdown_leak_on_list_registry :
  let '(m, err, r1) := Router.Initialize Router.first_error "chain" [] in
  let '(err', r2) := Router.Shutdown m r1 in
  err = None ∧ err' = None ∧
  r2 = [Router.mkCollector "chain" "get_accepted_frontier_failed"] ∧
  (Router.Initialize Router.first_error "chain" r2).1.2 =
    Some ("failed to register get_accepted_frontier_failed statistics due to "
          +:+ "duplicate metrics collector registration attempted")%string.
Proof. vm_compute. repeat split; reflexivity. Qed.

Lemma demo_wallet_in_range : Avm.balances_in_range Avm.demo_wallet.
Proof. intros k z Hz. vm_compute in Hz. discriminate Hz. Qed.

Lemma AddUTXO_credits_balance_witness :
  ∃ w', Avm.AddUTXO (Some Avm.demo_utxo) Avm.demo_wallet = Ok w' ∧
    Avm.Balance 7%N w' = Avm.wrap64 (Avm.Balance 7%N Avm.demo_wallet + 5) ∧
    (∀ k, k ≠ 7%N → Avm.Balance k w' = Avm.Balance k Avm.demo_wallet) ∧
    Avm.utxoSet w' = Avm.Put Avm.demo_utxo (Avm.utxoSet Avm.demo_wallet) ∧
    Avm.keychain w' = Avm.keychain Avm.demo_wallet ∧
    Avm.txs w' = Avm.txs Avm.demo_wallet ∧
    (Avm.balances_in_range Avm.demo_wallet → Avm.balances_in_range w').
Proof.
  apply (AddUTXO_credits_balance Avm.demo_wallet Avm.demo_utxo 5%Z); reflexivity.
Defined.

Lemma AddUTXO_RemoveUTXO_round_trip_witness :
  ∃ w1 w2,
    Avm.AddUTXO (Some Avm.demo_utxo) Avm.demo_wallet = Ok w1 ∧
    Avm.RemoveUTXO 40%N w1 = Ok w2 ∧
    (∀ k, Avm.Balance k w2 = Avm.Balance k Avm.demo_wallet) ∧
    (Avm.balance Avm.demo_wallet !! 7%N ≠ Some 0%Z →
     Avm.balance w2 = Avm.balance Avm.demo_wallet) ∧
    Avm.utxoSet w2 =
      Avm.Remove 40%N (Avm.Put Avm.demo_utxo (Avm.utxoSet Avm.demo_wallet)) ∧
    Avm.keychain w2 = Avm.keychain Avm.demo_wallet ∧
    Avm.txs w2 = Avm.txs Avm.demo_wallet.
Proof.
  apply (AddUTXO_RemoveUTXO_round_trip Avm.demo_wallet Avm.demo_utxo 5%Z);
    [exact demo_wallet_in_range | reflexivity | reflexivity | reflexivity].
Defined.

Lemma AddUTXO_twice_credits_twice_witness :
  ∃ w1 w2 w3,
    Avm.AddUTXO (Some Avm.demo_utxo) Avm.demo_wallet = Ok w1 ∧
    Avm.AddUTXO (Some Avm.demo_utxo) w1 = Ok w2 ∧
    Avm.Balance 7%N w2 = Avm.wrap64 (Avm.Balance 7%N Avm.demo_wallet + 2 * 5) ∧
    Avm.utxoSet w2 = Avm.utxoSet w1 ∧
    Avm.RemoveUTXO 40%N w2 = Ok w3 ∧
    Avm.Balance 7%N w3 = Avm.wrap64 (Avm.Balance 7%N Avm.demo_wallet + 5) ∧
    Avm.RemoveUTXO 40%N w3 = Ok w3.
Proof.
  apply (AddUTXO_twice_credits_twice Avm.demo_wallet Avm.demo_utxo 5%Z);
    [reflexivity | reflexivity | vm_compute; reflexivity | reflexivity
    | vm_compute; reflexivity].
Defined.
